(** * confluence_tool.confluence_api: reference resolution, pagination,
      property filtering and page-tree copy

    A shallow embedding of the policy code of [ConfluenceAPI]
    (src/confluence_tool/confluence_api.py) and the properties proved of it.

    - [Re]       the fragment of Python's [re] that the module-level patterns use
    - [Resolver] [resolveCQL]
    - [Iterator] [iterate]
    - [Filter]   [getPagesWithProperties] / [page_prop_filterer]
    - [Sync]     [request], [getPage], [createPage], [updatePage],
                 [getChildren], [copyPage]
    - [Wiki]     an in-memory content service and page trees to run [Sync] on

    The definitions come first; the modules [ReFacts], [ResolverFacts],
    [IteratorFacts], [FilterFacts] and [SyncFacts] hold what is proved. *)

From Stdlib Require Import String Ascii List ZArith Lia Bool Arith Permutation.
Import ListNotations.

Local Open Scope string_scope.

(** Python string literals with an embedded double quote are built with [dq]. *)
Definition dq : string := String "034"%char EmptyString.
Definition newline : ascii := "010"%char.

(* ===================================================================== *)
(** * Regular expressions                                                 *)
(* ===================================================================== *)

(** The patterns compiled in the class body use anchors, literals and one
    character class under a quantifier, with capture groups that enclose a
    single quantified class.  [Re] is a backtracking matcher for exactly this
    fragment, with the semantics of Python 2's [re] without flags:
    [.] is any character but a newline, [\d] is [0-9], [$] matches at the
    end of the string and just before a newline that ends the string, and
    [search] tries the start offsets from left to right. *)
Module Re.

Definition charset := ascii -> bool.

Definition between (lo hi : ascii) : charset :=
  fun c => (nat_of_ascii lo <=? nat_of_ascii c)%nat
           && (nat_of_ascii c <=? nat_of_ascii hi)%nat.

Definition upper : charset := between "A" "Z".        (* [A-Z] *)
Definition digit : charset := between "0" "9".        (* \d    *)
Definition dot : charset := fun c => negb (Ascii.eqb c newline).  (* . *)
Definition bang_or_eq : charset :=                    (* [!=]  *)
  fun c => Ascii.eqb c "!" || Ascii.eqb c "=".

Inductive quant := One | Star | Plus | LazyStar.

Inductive item :=
| Bol                                             (* ^ *)
| Eol                                             (* $ *)
| Lit (s : string)                                (* literal text *)
| Chars (capture : bool) (p : charset) (q : quant). (* X, X*, X+, X*?, in a group or not *)

Definition regex := list item.

Section Quantifiers.
Context {R : Type}.
(** The continuation receives the text consumed and the text left. *)
Variable p : charset.

(** [X*]: the longest run first, giving characters back on failure. *)
Fixpoint greedy (s : string) (k : string -> string -> option R) : option R :=
  match s with
  | String c s' =>
      if p c then
        match greedy s' (fun g r => k (String c g) r) with
        | Some x => Some x
        | None => k "" s
        end
      else k "" s
  | EmptyString => k "" s
  end.

(** [X*?]: the shortest run first, taking one more character on failure. *)
Fixpoint lazy (s : string) (k : string -> string -> option R) : option R :=
  match k "" s with
  | Some x => Some x
  | None =>
      match s with
      | String c s' => if p c then lazy s' (fun g r => k (String c g) r) else None
      | EmptyString => None
      end
  end.

Definition rep (q : quant) (s : string) (k : string -> string -> option R) : option R :=
  match q with
  | One =>
      match s with
      | String c s' => if p c then k (String c "") s' else None
      | EmptyString => None
      end
  | Star => greedy s k
  | Plus =>
      match s with
      | String c s' => if p c then greedy s' (fun g r => k (String c g) r) else None
      | EmptyString => None
      end
  | LazyStar => lazy s k
  end.
End Quantifiers.

(** [strip l s] removes the literal [l] from the front of [s]. *)
Fixpoint strip (l s : string) : option string :=
  match l with
  | EmptyString => Some s
  | String a l' =>
      match s with
      | String b s' => if Ascii.eqb a b then strip l' s' else None
      | EmptyString => None
      end
  end.

Definition at_eol (s : string) : bool :=
  match s with
  | EmptyString => true
  | String c EmptyString => Ascii.eqb c newline
  | _ => false
  end.

(** Match [r] against the text [s] that starts at offset [pos]; the result
    is the tuple of captured groups ([m.groups()]). *)
Fixpoint match_here (r : regex) (pos : nat) (s : string) : option (list string) :=
  match r with
  | [] => Some []
  | Bol :: r' => if (pos =? 0)%nat then match_here r' pos s else None
  | Eol :: r' => if at_eol s then match_here r' pos s else None
  | Lit l :: r' =>
      match strip l s with
      | Some s' => match_here r' (pos + String.length l) s'
      | None => None
      end
  | Chars cap p q :: r' =>
      rep p q s (fun g s' =>
        match match_here r' (pos + String.length g) s' with
        | Some gs => Some (if cap then g :: gs else gs)
        | None => None
        end)
  end.

Fixpoint search_from (r : regex) (pos : nat) (s : string) : option (list string) :=
  match match_here r pos s with
  | Some gs => Some gs
  | None =>
      match s with
      | String _ s' => search_from r (S pos) s'
      | EmptyString => None
      end
  end.

(** [RE.search(s)] followed by [.groups()]; [None] when there is no match. *)
Definition search (r : regex) (s : string) : option (list string) :=
  search_from r 0 s.

(** Every character of [s] is in the class [p]. *)
Fixpoint every (p : charset) (s : string) : bool :=
  match s with
  | EmptyString => true
  | String c s' => p c && every p s'
  end.

End Re.

(* ===================================================================== *)
(** * Reference resolver                                                  *)
(* ===================================================================== *)

Module Resolver.
Import Re.

(** SPACE_PAGE_REF: start, group of [A-Z] starred, a colon, group of dot starred, end. *)
Definition SPACE_PAGE_REF : regex :=
  [Bol; Chars true upper Star; Lit ":"; Chars true dot Star; Eol].
(** PAGE_REF: start, a colon, group of dot starred, end. *)
Definition PAGE_REF : regex :=
  [Bol; Lit ":"; Chars true dot Star; Eol].
(** PAGE_ID: start, group of one or more digits, end. *)
Definition PAGE_ID : regex :=
  [Bol; Chars true digit Plus; Eol].
(** PAGE_URI: the text api/content/, group of one or more digits, end. *)
Definition PAGE_URI : regex :=
  [Lit "api/content/"; Chars true digit Plus; Eol].

(** [template.format] applied to the groups, for templates whose only fields are [{}].
    The patterns above fix the number of groups, so the arguments never
    run out; a field without an argument is left as it is. *)
Fixpoint format (t : string) (args : list string) : string :=
  match t with
  | String "{" (String "}" t') =>
      match args with
      | a :: args' => a ++ format t' args'
      | [] => String "{" (String "}" (format t' []))
      end
  | String c t' => String c (format t' args)
  | EmptyString => EmptyString
  end.

(** [resolveCQL]: the patterns are tried in the order of the [if]s, the
    first one found by [search] decides, and [ref] itself is returned when
    none is found. *)
Definition resolveCQL (ref : string) : string :=
  match search SPACE_PAGE_REF ref with
  | Some mob => format ("space = {} AND title  = " ++ dq ++ "{}" ++ dq) mob
  | None =>
  match search PAGE_REF ref with
  | Some mob => format ("title  = " ++ dq ++ "{}" ++ dq) mob
  | None =>
  match search PAGE_ID ref with
  | Some mob => format "ID  = {}" mob
  | None =>
  match search PAGE_URI ref with
  | Some mob => format "ID  = {}" mob
  | None => ref
  end end end end.

End Resolver.

(* ===================================================================== *)
(** * Paginated query iterator                                            *)
(* ===================================================================== *)

Module Iterator.
Local Open Scope Z_scope.

Section Iterate.
(** A content item, as decoded from the listing. *)
Variable Item : Type.

(** The fields of the listing response that [iterate] reads. *)
Record Result := mkResult { results : list Item; size : Z; limit : Z }.

(** [self.findPages( *args, start=..., limit=... )] for the query and
    expansion of this iteration, as a function of the window asked for. *)
Variable findPages : Z -> Z -> Result.

(** What running the generator to its end produces: the items in the
    order of their [yield], and the [(start, limit)] of every request. *)
Record Run := mkRun { yielded : list Item; requests : list (Z * Z) }.

(** The [for page in result['results']] loop: yield, decrement, and leave
    the loop once the counter is not positive.  Returns the pages yielded
    and the counter after the loop. *)
Fixpoint for_pages (pages : list Item) (maxResults : Z) : list Item * Z :=
  match pages with
  | [] => ([], maxResults)
  | page :: rest =>
      let maxResults := maxResults - 1 in
      if maxResults <=? 0 then ([page], maxResults)
      else
        let '(ys, m) := for_pages rest maxResults in
        (page :: ys, m)
  end.

(** The [while True] loop; [fuel] bounds the number of rounds. *)
Fixpoint while_true (fuel : nat) (start lim maxResults : Z) : option Run :=
  match fuel with
  | O => None
  | S fuel' =>
      let result := findPages start lim in
      let '(ys, maxResults) := for_pages (results result) maxResults in
      if maxResults <=? 0 then Some (mkRun ys [(start, lim)])
      else
        let start' := start + lim in
        if size result <? limit result then Some (mkRun ys [(start, lim)])
        else
          match while_true fuel' start' lim maxResults with
          | Some r => Some (mkRun (ys ++ yielded r) ((start, lim) :: requests r))
          | None => None
          end
  end.

(** [iterate]: [start] and [limit] are the keyword arguments of the
    caller, [None] when the keyword is not given. *)
Definition iterate (fuel : nat) (start limit : option Z) : option Run :=
  let start := match start with Some s => s | None => 0 end in
  let kw_limit := match limit with Some l => l | None => -1 end in
  let lim := 25 in
  let maxResults := kw_limit in
  let maxResults := if maxResults <? 0 then 10000000000 else maxResults in
  while_true fuel start lim maxResults.
End Iterate.

Arguments mkResult {Item}.
Arguments results {Item}.
Arguments size {Item}.
Arguments limit {Item}.
Arguments mkRun {Item}.
Arguments yielded {Item}.
Arguments requests {Item}.
Arguments for_pages {Item}.
Arguments while_true {Item}.
Arguments iterate {Item}.

(** A remote that holds the items [xs] for the query and answers a window
    with the items it covers, reporting their number and the limit asked. *)
Definition paged_remote {Item} (xs : list Item) (start lim : Z) : Result Item :=
  let rs := firstn (Z.to_nat lim) (skipn (Z.to_nat start) xs) in
  mkResult rs (Z.of_nat (length rs)) lim.

(** The remote serves, from [start] on, the full pages [pgs] and then the
    short page [lastp]. *)
Definition serves {Item} (findPages : Z -> Z -> Result Item)
           (start : Z) (pgs : list (list Item)) (lastp : list Item) : Prop :=
  (forall i pg, nth_error pgs i = Some pg ->
      findPages (start + 25 * Z.of_nat i) 25 = mkResult pg 25 25
      /\ length pg = 25%nat)
  /\ findPages (start + 25 * Z.of_nat (length pgs)) 25
      = mkResult lastp (Z.of_nat (length lastp)) 25
  /\ (length lastp < 25)%nat.

(** The windows requested when [n] rounds are made from [start]. *)
Definition windows (start : Z) (n : nat) : list (Z * Z) :=
  map (fun i => (start + 25 * Z.of_nat i, 25)) (seq 0 n).

(** A remote with 400000000 full pages of 25 items from offset 0, and a
    page of one item after them. *)
Definition long_remote (start lim : Z) : Result unit :=
  if start <? 10000000000
  then mkResult (repeat tt (Z.to_nat lim)) lim lim
  else mkResult [tt] 1 lim.

(** The reading of C7 without a bound on the number of items: whatever
    full pages precede the short page, an iteration without a limit ends
    with the request of the short page, having yielded every page. *)
Definition ends_with_short_page_unbounded : Prop :=
  forall (findPages : Z -> Z -> Result unit) start pgs lastp,
    serves findPages start pgs lastp ->
    exists fuel,
      iterate findPages fuel (Some start) None
      = Some (mkRun (concat pgs ++ lastp) (windows start (S (length pgs)))).

End Iterator.

(* ===================================================================== *)
(** * Property filter                                                     *)
(* ===================================================================== *)

Module Filter.
Import Re.

(** PAGE_PROP_FILTER: start, lazy group of dot, group of one of ! and =,
    an equals sign, group of dot starred. *)
Definition PAGE_PROP_FILTER : regex :=
  [Bol; Chars true dot LazyStar; Chars true bang_or_eq One; Lit "=";
   Chars true dot Star].

(** [dict(name=name, cmp=cmp, value=value)] *)
Record spec := mkSpec { name : string; cmp : string; value : string }.

(** An element of [page_prop_filter]: a string to parse, or a dict. *)
Inductive filter_item :=
| Str (s : string)
| Dict (f : spec).

(** What [page.getPageProperty] gives: nothing, a scalar or a list. *)
Inductive propval :=
| Absent
| Scalar (s : string)
| Multi (l : list string).

Inductive outcome (A : Type) :=
| Returns (a : A)
| NameError.        (* free variable [cmp] referenced before assignment *)
Arguments Returns {A}.
Arguments NameError {A}.

(** The loop over [page_prop_filter].  [cmp] is a local variable of
    [getPagesWithProperties], assigned by the tuple unpacking of every
    string that matches; [None] is the unbound variable. *)
Fixpoint for_items (items : list filter_item)
         (page_prop_filters : list spec) (cmp : option string)
  : list spec * option string :=
  match items with
  | [] => (page_prop_filters, cmp)
  | Str item :: rest =>
      match search PAGE_PROP_FILTER item with
      | Some [name; cmp'; value] =>
          for_items rest (page_prop_filters ++ [mkSpec name cmp' value]) (Some cmp')
      | _ => for_items rest page_prop_filters cmp
      end
  | Dict item :: rest => for_items rest (page_prop_filters ++ [item]) cmp
  end.

Definition in_list (v : string) (l : list string) : bool :=
  existsb (String.eqb v) l.

(** [value == f['value']] for a value that is not a list. *)
Definition eq_value (v : propval) (expected : string) : bool :=
  match v with
  | Scalar s => String.eqb s expected
  | _ => false
  end.

Section Filterer.
Variable Page : Type.
Variable getPageProperty : Page -> string -> propval.

(** The closure [page_prop_filterer]: it reads [page_prop_filters] and
    [cmp] from the enclosing call. *)
Variable page_prop_filters : list spec.
Variable cmp : option string.

Fixpoint for_filters (fs : list spec) (page : Page) (result : bool) : outcome bool :=
  match fs with
  | [] => Returns result
  | f :: rest =>
      let v := getPageProperty page (name f) in
      match cmp with
      | None => NameError
      | Some c =>
          let result :=
            if String.eqb c "=" then
              match v with
              | Multi l => result && in_list (value f) l
              | _ => result && eq_value v (value f)
              end
            else
              match v with
              | Multi l => result && negb (in_list (value f) l)
              | _ => result && negb (eq_value v (value f))
              end
          in
          for_filters rest page result
      end
  end.

Definition page_prop_filterer (page : Page) : outcome bool :=
  if (length page_prop_filters =? 0)%nat then Returns true
  else for_filters page_prop_filters page true.

(** [filter(page_prop_filterer, pages)] *)
Fixpoint filter_pages (pages : list Page) : outcome (list Page) :=
  match pages with
  | [] => Returns []
  | page :: rest =>
      match page_prop_filterer page with
      | NameError => NameError
      | Returns keep =>
          match filter_pages rest with
          | NameError => NameError
          | Returns ps => Returns (if keep then page :: ps else ps)
          end
      end
  end.
End Filterer.

Arguments for_filters {Page}.
Arguments page_prop_filterer {Page}.
Arguments filter_pages {Page}.

(** [getPagesWithProperties], on the pages that [getPages] yields for the
    query.  [page_prop_filter] is [None] or the list of its elements (a
    single element is wrapped into a list by the code). *)
Definition getPagesWithProperties {Page} (getPageProperty : Page -> string -> propval)
           (pages : list Page) (page_prop_filter : option (list filter_item))
  : outcome (list Page) :=
  let '(page_prop_filters, cmp) :=
    match page_prop_filter with
    | Some items => for_items items [] None
    | None => ([], None)
    end in
  filter_pages getPageProperty page_prop_filters cmp pages.

(** The reading of one filter spec under its own operator: [=] is
    membership or equality, anything else their negation. *)
Definition spec_holds (v : propval) (f : spec) : bool :=
  let hit := match v with
             | Multi l => in_list (value f) l
             | _ => eq_value v (value f)
             end in
  if String.eqb (cmp f) "=" then hit else negb hit.

(** A page given by the table of its properties. *)
Definition props := string -> propval.

Definition getPageProperty (page : props) (name : string) : propval :=
  page name.

(** A page labelled draft and public, owned by ann. *)
Definition labelled_page : props :=
  fun n =>
    if String.eqb n "labels" then Multi ["draft"; "public"]
    else if String.eqb n "owner" then Scalar "ann"
    else Absent.

End Filter.

(* ===================================================================== *)
(** * Page tree copy                                                      *)
(* ===================================================================== *)

Module Sync.

Inductive method := GET | PUT | POST | DELETE.

(** The fields of a content object that [copyPage] reads.  The version and
    the storage body are present only when the request expanded them. *)
Record page := mkPage {
  page_id : string;                (* ['id'] *)
  page_title : string;             (* ['title'] *)
  page_version : option Z;         (* ['version']['number'] *)
  page_storage : option string     (* ['body']['storage']['value'] *)
}.

(** The [params] of a request, by the method that builds them. *)
Inductive params :=
| NoParams
| Expand (expand : string)
| CreateData (title : string) (space : option string) (storage : string)
             (parent : option string)
| UpdateData (version : Z) (title : string) (storage : string).

Record call := mkCall {
  call_method : method;
  call_endpoint : string;
  call_params : params
}.

(** A decoded response body. *)
Inductive json :=
| JEmpty                      (* {} *)
| JPage (p : page)
| JResults (ps : list page).  (* {'results': [...]} *)

(** What [self.session.request] does: a response, or an exception. *)
Inductive response :=
| Response (status_code : Z) (text : string) (body : json)
| Failure.

(** The values bound to [source_page] and [target_page], and returned. *)
Inductive value :=
| PyNone
| Obj (j : json).

Inductive exn :=
| ConfluenceError (text : string)
| StandardError
| KeyError (key : string)
| TypeError
| AssertionError
| AttributeError (name : string).

Inductive outcome (A : Type) :=
| Ok (a : A)
| Raise (e : exn)
| OutOfFuel.
Arguments Ok {A}.
Arguments Raise {A}.
Arguments OutOfFuel {A}.

(** ** Lists of titled pages and the dicts built from them *)

Fixpoint insert_sorted (x : string * page) (l : list (string * page))
  : list (string * page) :=
  match l with
  | [] => [x]
  | y :: l' => if String.leb (fst x) (fst y) then x :: l else y :: insert_sorted x l'
  end.

(** [sorted] on (title, page) pairs.  Pairs with one title keep the order
    of the remote; the code goes on only when there are none. *)
Definition sorted (l : list (string * page)) : list (string * page) :=
  fold_right insert_sorted [] l.

(** A dict from titles to pages.  Python 2 fixes no order for the items of
    a dict; here they come in the order of first insertion, and nothing
    proved below depends on the order. *)
Definition dict := list (string * page).

Fixpoint dict_set (k : string) (v : page) (d : dict) : dict :=
  match d with
  | [] => [(k, v)]
  | (k', v') :: d' =>
      if String.eqb k k' then (k, v) :: d' else (k', v') :: dict_set k v d'
  end.

(** [dict(pairs)]: a later pair replaces an earlier one with its key. *)
Definition dict_of (pairs : list (string * page)) : dict :=
  fold_left (fun d kv => dict_set (fst kv) (snd kv) d) pairs [].

Definition dict_mem (k : string) (d : dict) : bool :=
  existsb (fun kv => String.eqb k (fst kv)) d.

Definition dict_get (k : string) (d : dict) : option page :=
  match find (fun kv => String.eqb k (fst kv)) d with
  | Some kv => Some (snd kv)
  | None => None
  end.

Definition titles (ps : list page) : list string := map page_title ps.

(** Some title occurs twice in the list. *)
Fixpoint has_duplicate (l : list string) : bool :=
  match l with
  | [] => false
  | x :: l' => existsb (String.eqb x) l' || has_duplicate l'
  end.

Definition content_url (page_id : string) : string :=
  if String.prefix "/rest" page_id then page_id
  else "/rest/api/content/" ++ page_id.

Section Remote.
(** The content service behind the session. *)
Variable World : Type.
Variable session_request :
  method -> string -> params -> World -> response * World.

(** The state threaded through the calls: the service, and the requests
    sent to it so far, oldest first. *)
Record state := mkState { remote : World; log : list call }.

Definition M (A : Type) : Type := state -> outcome A * state.

Definition ret {A} (a : A) : M A := fun st => (Ok a, st).
Definition raise {A} (e : exn) : M A := fun st => (Raise e, st).
Definition out_of_fuel {A} : M A := fun st => (OutOfFuel, st).
Definition bind {A B} (c : M A) (k : A -> M B) : M B :=
  fun st =>
    match c st with
    | (Ok a, st') => k a st'
    | (Raise e, st') => (Raise e, st')
    | (OutOfFuel, st') => (OutOfFuel, st')
    end.

Notation "x <- c ;; k" := (bind c (fun x => k))
  (at level 61, c at next level, right associativity).
Notation "c ;;; k" := (bind c (fun _ => k))
  (at level 61, right associativity).

Fixpoint for_each {A} (l : list A) (body : A -> M unit) : M unit :=
  match l with
  | [] => ret tt
  | x :: l' => body x ;;; for_each l' body
  end.

Definition assert_ (b : bool) : M unit :=
  if b then ret tt else raise AssertionError.

(** [request]: send, raise [ConfluenceError] on a status of 400 or more,
    else decode the body, [{}] when the text is empty. *)
Definition request (m : method) (endpoint : string) (ps : params) : M json :=
  fun st =>
    let '(r, w) := session_request m endpoint ps (remote st) in
    let st' := mkState w (log st ++ [mkCall m endpoint ps]) in
    match r with
    | Failure => (Raise StandardError, st')
    | Response status_code text body =>
        if (400 <=? status_code)%Z then (Raise (ConfluenceError text), st')
        else if String.eqb text "" then (Ok JEmpty, st')
        else (Ok body, st')
    end.

Definition get := request GET.
Definition put := request PUT.
Definition post := request POST.
Definition delete := request DELETE.

(** Modelled from the spec: the class [Page] of module [page], which is
    not in this file.  An instance wraps the decoded content and indexes
    like it. *)
Definition Page (data : json) : value := Obj data.

Definition getPage (page_id expand : string) : M value :=
  data <- get (content_url page_id) (Expand expand) ;;
  ret (Page data).

Definition createPage (space : option string) (title storage : string)
           (parent : option string) : M value :=
  data <- post "/rest/api/content" (CreateData title space storage parent) ;;
  ret (Obj data).

Definition updatePage (id title : string) (version : Z) (storage : string)
  : M value :=
  data <- put ("/rest/api/content/" ++ id) (UpdateData version title storage) ;;
  ret (Obj data).

Definition getChildren (page_id : string) (type : option string)
  : M (list page) :=
  let page_id := content_url page_id in
  let url := match type with
             | None => page_id ++ "/child"
             | Some t => page_id ++ "/child/" ++ t
             end in
  data <- get url (Expand "") ;;
  match data with
  | JResults ps => ret ps
  | _ => raise (KeyError "results")
  end.

(** Indexing of a value held in a local variable. *)
Definition item_page (key : string) (v : value) : M page :=
  match v with
  | PyNone => raise TypeError
  | Obj (JPage p) => ret p
  | Obj _ => raise (KeyError key)
  end.

Definition item_id (v : value) : M string :=
  p <- item_page "id" v ;; ret (page_id p).

Definition item_title (v : value) : M string :=
  p <- item_page "title" v ;; ret (page_title p).

Definition item_version (v : value) : M Z :=
  p <- item_page "version" v ;;
  match page_version p with
  | Some n => ret n
  | None => raise (KeyError "version")
  end.

Definition item_storage (v : value) : M string :=
  p <- item_page "body" v ;;
  match page_storage p with
  | Some s => ret s
  | None => raise (KeyError "body")
  end.

(** [self.deletePage].  The class body defines no such method; the name
    is resolved on the instance when the call is reached. *)
Variable deletePage : string -> M value.

(** The two fetches and the create-or-update of [copyPage]; the result
    is the pair of [source_page] and [target_page] afterwards. *)
Definition copyPage_target (source target : string)
           (parent space : option string) : M (value * value) :=
  source_page <- getPage source "body.storage,space" ;;
  target_page <- getPage target "version,space" ;;
  match target_page with
  | PyNone =>
      storage <- item_storage source_page ;;
      target_page <- createPage space target storage parent ;;
      ret (source_page, target_page)
  | _ =>
      id <- item_id target_page ;;
      version <- item_version target_page ;;
      title <- item_title target_page ;;
      storage <- item_storage source_page ;;
      updatePage id title version storage ;;;
      ret (source_page, target_page)
  end.

(** [self.getChildren(page['id'], type='page')] *)
Definition children_of (v : value) : M (list page) :=
  id <- item_id v ;;
  getChildren id (Some "page").

Definition by_title (ps : list page) : list (string * page) :=
  map (fun p => (page_title p, p)) ps.

(** The children of both pages, as sorted (title, page) lists. *)
Definition subpages (source_page target_page : value)
  : M (list (string * page) * list (string * page)) :=
  cs <- children_of source_page ;;
  ct <- children_of target_page ;;
  ret (sorted (by_title cs), sorted (by_title ct)).

(** The target handed to the recursive call for a source child. *)
Definition subpage_target (target_subpage : dict) (title : string) : string :=
  match dict_get title target_subpage with
  | Some p => page_id p
  | None => title
  end.

(** The loop that deletes the target children without a source child. *)
Definition prune (source_subpage target_subpage : dict) : M unit :=
  for_each target_subpage (fun '(title, page) =>
    if negb (dict_mem title source_subpage)
    then deletePage (page_id page) ;;; ret tt
    else ret tt).

(** The part of [copyPage] after the children are fetched: the two
    [assert]s, the loop over the source children and the loop that
    deletes.  [copy] is the recursive call, given the source, the
    target and the parent. *)
Definition copy_children
           (copy : string -> string -> option string -> M value)
           (target_page : value)
           (source_subpages target_subpages : list (string * page))
           (delete : bool) : M unit :=
  let source_subpage := dict_of source_subpages in
  let target_subpage := dict_of target_subpages in
  assert_ (length source_subpage =? length source_subpages)%nat ;;;
  assert_ (length target_subpage =? length target_subpages)%nat ;;;
  for_each source_subpage (fun '(title, page) =>
    let subpage := subpage_target target_subpage title in
    tid <- item_id target_page ;;
    copy (page_id page) subpage (Some tid) ;;;
    ret tt) ;;;
  (if delete then prune source_subpage target_subpage else ret tt).

(** [copyPage], called with a target; [fuel] bounds the depth of the
    recursion.  The recursive call passes no [delete], which is then its
    default [False]. *)
Fixpoint copyPage (fuel : nat) (source target : string) (recursive : bool)
         (parent space : option string) (delete : bool) : M value :=
  match fuel with
  | O => out_of_fuel
  | S fuel' =>
      pages <- copyPage_target source target parent space ;;
      let '(source_page, target_page) := pages in
      (if recursive then
         subs <- subpages source_page target_page ;;
         let '(source_subpages, target_subpages) := subs in
         copy_children
           (fun source target parent =>
              copyPage fuel' source target recursive parent space false)
           target_page source_subpages target_subpages delete
       else ret tt) ;;;
      ret PyNone
  end.

(** The requests made between two states. *)
Definition sent (st st' : state) (l : list call) : Prop :=
  log st' = (log st ++ l)%list.

(** [run c Q P]: whatever [c] does, the requests it sends are appended
    to the log and satisfy [P], and a value it returns satisfies [Q]. *)
Definition run {A} (c : M A) (Q : A -> Prop) (P : call -> Prop) : Prop :=
  forall st r st',
    c st = (r, st') ->
    (forall a, r = Ok a -> Q a)
    /\ exists l, sent st st' l /\ Forall P l.

(** What is asked of [deletePage]: a delete request that it sends is
    the one for the content id it is given. *)
Definition only_deletes : Prop :=
  forall id,
    run (deletePage id) (fun _ => True)
        (fun c => call_method c = DELETE ->
                  call_endpoint c = "/rest/api/content/" ++ id).

(** The update of the target that a call of [copyPage] for [source] and
    [target] makes from the state [st]: the source and the target are
    fetched, the service is sent the update of the page that the fetch
    of the target gave, with the title and the version number of that
    page and the storage body of the source, and answers it with a
    status below 400; [st3] is the state after these three requests. *)
Definition updates_target (source target : string) (st st3 : state) : Prop :=
  exists sp tp n body st1 st2 status text j,
    getPage source "body.storage,space" st = (Ok (Obj (JPage sp)), st1)
    /\ getPage target "version,space" st1 = (Ok (Obj (JPage tp)), st2)
    /\ page_storage sp = Some body
    /\ page_version tp = Some n
    /\ session_request PUT ("/rest/api/content/" ++ page_id tp)
         (UpdateData n (page_title tp) body) (remote st2)
       = (Response status text j, remote st3)
    /\ (status < 400)%Z
    /\ log st3
       = (log st
          ++ [mkCall GET (content_url source) (Expand "body.storage,space");
              mkCall GET (content_url target) (Expand "version,space");
              mkCall PUT ("/rest/api/content/" ++ page_id tp)
                     (UpdateData n (page_title tp) body)])%list.

End Remote.

Arguments mkState {World}.
Arguments remote {World}.
Arguments log {World}.
Arguments ret {World A}.
Arguments raise {World A}.
Arguments out_of_fuel {World A}.
Arguments bind {World A B}.
Arguments for_each {World A}.
Arguments assert_ {World}.
Arguments sent {World}.
Arguments run World {A}.

Definition get_or_put (c : call) : Prop :=
  call_method c = GET \/ call_method c = PUT.

(** A target child without a source child of its title: [c] is a request
    on the content of a page of [ct] whose title no page of [cs] has. *)
Definition on_orphan (cs ct : list page) (c : call) : Prop :=
  exists p, In p ct /\ ~ In (page_title p) (titles cs)
            /\ call_endpoint c = "/rest/api/content/" ++ page_id p.

Definition dict_step (d : dict) (kv : string * page) : dict :=
  dict_set (fst kv) (snd kv) d.

Definition is_create (c : call) : bool :=
  match call_method c with POST => true | _ => false end.
Definition is_update (c : call) : bool :=
  match call_method c with PUT => true | _ => false end.
Definition is_delete (c : call) : bool :=
  match call_method c with DELETE => true | _ => false end.

End Sync.

(* ===================================================================== *)
(** * An in-memory content service                                        *)
(* ===================================================================== *)

(** A small content service to run [copyPage] against concrete page trees.
    It answers the endpoints that [copyPage] uses, with status 404 for a
    content id it does not hold, and accepts every update of a page it
    holds. *)
Module Wiki.
Import Sync.

Record stored := mkStored {
  s_id : string;
  s_title : string;
  s_parent : option string;
  s_body : string;
  s_version : Z
}.

Definition World := list stored.

Definition to_page (s : stored) : page :=
  mkPage (s_id s) (s_title s) (Some (s_version s)) (Some (s_body s)).

Definition lookup (id : string) (w : World) : option stored :=
  find (fun s => String.eqb (s_id s) id) w.

Definition children (id : string) (w : World) : list stored :=
  filter (fun s => match s_parent s with
                   | Some p => String.eqb p id
                   | None => false
                   end) w.

Inductive resource :=
| Collection                  (* /rest/api/content *)
| Content (id : string)       (* /rest/api/content/ID *)
| ChildPages (id : string)    (* /rest/api/content/ID/child/page *)
| Unknown.

(** Split [ID/child/page] into [ID] and the fact that the suffix is there. *)
Fixpoint split_child (s : string) : string * bool :=
  match s with
  | EmptyString => (EmptyString, false)
  | String c s' =>
      if String.eqb s "/child/page" then (EmptyString, true)
      else let '(id, b) := split_child s' in (String c id, b)
  end.

Definition resource_of (endpoint : string) : resource :=
  match Re.strip "/rest/api/content" endpoint with
  | None => Unknown
  | Some EmptyString => Collection
  | Some rest =>
      match Re.strip "/" rest with
      | None => Unknown
      | Some r =>
          let '(id, child) := split_child r in
          if child then ChildPages id else Content id
      end
  end.

Definition not_found : response := Response 404 "not found" JEmpty.

Definition serve (m : method) (endpoint : string) (ps : params) (w : World)
  : response * World :=
  match m, resource_of endpoint, ps with
  | GET, Content id, _ =>
      match lookup id w with
      | Some s => (Response 200 "content" (JPage (to_page s)), w)
      | None => (not_found, w)
      end
  | GET, ChildPages id, _ =>
      match lookup id w with
      | Some _ => (Response 200 "children" (JResults (map to_page (children id w))), w)
      | None => (not_found, w)
      end
  | POST, Collection, CreateData title _ storage parent =>
      let s := mkStored ("new-" ++ title) title parent storage 1 in
      (Response 200 "created" (JPage (to_page s)), (w ++ [s])%list)
  | PUT, Content id, UpdateData version title storage =>
      match lookup id w with
      | Some s =>
          let s' := mkStored id title (s_parent s) storage (version + 1) in
          (Response 200 "updated" (JPage (to_page s')),
           map (fun x => if String.eqb (s_id x) id then s' else x) w)
      | None => (not_found, w)
      end
  | DELETE, Content id, _ =>
      match lookup id w with
      | Some _ => (Response 204 "" JEmpty,
                   filter (fun x => negb (String.eqb (s_id x) id)) w)
      | None => (not_found, w)
      end
  | _, _, _ => (Response 405 "method not allowed" JEmpty, w)
  end.

Definition start (w : World) : state World := mkState w [].

(** A [deletePage] that sends the delete request for the content id. *)
Definition deletePage_request (id : string) : M World value :=
  bind (delete World serve ("/rest/api/content/" ++ id) NoParams)
       (fun data => ret (Obj data)).

(** The lookup of the missing attribute: [__getattr__] raises. *)
Definition deletePage_missing (id : string) : M World value :=
  raise (AttributeError "deletePage").

(** Source tree A{B,C{D}}; there is no page NewA. *)
Definition tree_ABCD : World :=
  [ mkStored "A" "A" None "body of A" 1;
    mkStored "B" "B" (Some "A") "body of B" 1;
    mkStored "C" "C" (Some "A") "body of C" 1;
    mkStored "D" "D" (Some "C") "body of D" 1 ].

(** Source A{B} and target T{B'}, where B' has the title B. *)
Definition tree_matching : World :=
  [ mkStored "A" "A" None "body of A" 3;
    mkStored "B" "B" (Some "A") "body of B" 2;
    mkStored "T" "T" None "old T" 7;
    mkStored "TB" "B" (Some "T") "old B" 4 ].

(** Source A{B}; target T{B'{Z}, X{Y}}: X and, one level down, Z have no
    counterpart in the source. *)
Definition tree_orphans : World :=
  [ mkStored "A" "A" None "body of A" 3;
    mkStored "B" "B" (Some "A") "body of B" 2;
    mkStored "T" "T" None "old T" 7;
    mkStored "TB" "B" (Some "T") "old B" 4;
    mkStored "TZ" "Z" (Some "TB") "old Z" 1;
    mkStored "TX" "X" (Some "T") "old X" 1;
    mkStored "TY" "Y" (Some "TX") "old Y" 1 ].

(** Source A{B{C,C}} and target T{B'}: the two pages with the title C are
    one level below the children of A. *)
Definition tree_nested_duplicates : World :=
  [ mkStored "A" "A" None "body of A" 3;
    mkStored "B" "B" (Some "A") "body of B" 2;
    mkStored "C1" "C" (Some "B") "first C" 1;
    mkStored "C2" "C" (Some "B") "second C" 1;
    mkStored "T" "T" None "old T" 7;
    mkStored "TB" "B" (Some "T") "old B" 4 ].

(** Source A{B,B}: two children with the title B. *)
Definition tree_duplicates : World :=
  [ mkStored "A" "A" None "body of A" 3;
    mkStored "B1" "B" (Some "A") "first B" 2;
    mkStored "B2" "B" (Some "A") "second B" 2;
    mkStored "T" "T" None "old T" 7 ].

(** The reading of C6 on this service: a call that returns, returns a
    content item. *)
Definition copyPage_returns_item : Prop :=
  forall deletePage fuel source target recursive parent space delete st v st',
    copyPage World serve deletePage fuel source target recursive parent
             space delete st = (Ok v, st') ->
    exists p, v = Obj (JPage p).

(** The endpoints of the requests in a log, with their methods. *)
Definition trace (st : state World) : list (method * string) :=
  map (fun c => (call_method c, call_endpoint c)) (log st).

End Wiki.

(* ===================================================================== *)
(** * Text predicates used to state properties                            *)
(* ===================================================================== *)

Module Text.
Import Re.

(** The string that holds the one character newline. *)
Definition nl : string := String newline EmptyString.

(** The text ends with a decimal digit, one final newline apart. *)
Fixpoint ends_digit (s : string) : bool :=
  match s with
  | EmptyString => false
  | String c s' =>
      match s' with
      | EmptyString => digit c
      | String n EmptyString => if Ascii.eqb n newline then digit c else digit n
      | _ => ends_digit s'
      end
  end.

(** The longest suffix of the text that is made of decimal digits. *)
Fixpoint digit_suffix (s : string) : string :=
  match s with
  | EmptyString => EmptyString
  | String c s' => if every digit s then s else digit_suffix s'
  end.

Definition not_a : charset := fun c => negb (Ascii.eqb c "a").

(** A character of a property name: neither a newline nor one of [!]
    and [=]. *)
Definition name_char : charset := fun c => dot c && negb (bang_or_eq c).

(** The text is empty or starts with a character that is neither an
    uppercase letter nor a colon. *)
Definition plain_start (s : string) : bool :=
  match s with
  | EmptyString => true
  | String c _ => negb (upper c) && negb (Ascii.eqb c ":")
  end.

End Text.

(* ===================================================================== *)
(** * The forms of a reference                                            *)
(* ===================================================================== *)

(** The forms of a reference that the resolver is described by: a space
    key of uppercase letters and a title after a colon, the key being
    empty when the colon leads; decimal digits only; and a text that ends
    with the path of a content and its decimal id.  They are predicates
    on the text of the reference and do not use the matcher. *)
Module Forms.
Import Re Resolver Text.

(** The text without the one newline that may end it. *)
Fixpoint chomp (s : string) : string :=
  match s with
  | EmptyString => EmptyString
  | String c s' =>
      match s' with
      | EmptyString => if Ascii.eqb c newline then EmptyString else s
      | String _ _ => String c (chomp s')
      end
  end.

(** The text after the uppercase letters that it starts with. *)
Fixpoint after_upper (s : string) : string :=
  match s with
  | EmptyString => EmptyString
  | String c s' => if upper c then after_upper s' else s
  end.

(** Uppercase letters, possibly none, then a colon. *)
Definition key_and_title_form (s : string) : bool :=
  match after_upper s with
  | String c _ => Ascii.eqb c ":"
  | EmptyString => false
  end.

(** One or more decimal digits and nothing else. *)
Definition digits_form (s : string) : bool :=
  negb (String.eqb s "") && every digit s.

(** The text ends with api/content/ followed by one or more decimal
    digits. *)
Fixpoint content_uri_form (s : string) : bool :=
  match s with
  | EmptyString => false
  | String _ s' =>
      match strip "api/content/" s with
      | Some ds => digits_form ds
      | None => false
      end
      || content_uri_form s'
  end.

(** The reading of C9 by these forms: a reference of none of the forms
    is returned unchanged. *)
Definition pass_through_as_specified : Prop :=
  forall ref,
    key_and_title_form ref = false ->
    digits_form ref = false ->
    content_uri_form ref = false ->
    resolveCQL ref = ref.

End Forms.

(* ===================================================================== *)
(** * What an iteration has fetched                                       *)
(* ===================================================================== *)

Module Fetch.
Import Iterator.
Local Open Scope Z_scope.

(** The items of the pages that the given requests are answered with, in
    the order of the requests. *)
Definition fetched {Item} (findPages : Z -> Z -> Result Item)
           (reqs : list (Z * Z)) : list Item :=
  concat (map (fun w => results (findPages (fst w) (snd w))) reqs).

(** The offset that [iterate] starts from. *)
Definition start_of (start : option Z) : Z :=
  match start with Some s => s | None => 0 end.

(** The number of requests that an iteration with the counter [limit]
    makes against a remote holding [total] items from the start offset
    on: the pages needed for [limit] items when the remote has that many,
    and otherwise every page up to and including the first one that is
    not full. *)
Definition rounds (limit total : Z) : Z :=
  if limit <=? total then (limit + 24) / 25 else total / 25 + 1.

End Fetch.

(* ===================================================================== *)
(** * Filter strings and what they select                                 *)
(* ===================================================================== *)

Module Select.
Import Re Filter Text.

(** The text holds one of [!] and [=] directly followed by [=]. *)
Fixpoint has_op (s : string) : bool :=
  match s with
  | EmptyString => false
  | String c s' =>
      (bang_or_eq c
       && match s' with String d _ => Ascii.eqb d "=" | EmptyString => false end)
      || has_op s'
  end.

(** The filter string for a property name and a value under the operator
    that starts with [o]: the name, [o], an equals sign, the value. *)
Definition filter_string (o : ascii) (nv : string * string) : string :=
  fst nv ++ String o (String "=" (snd nv)).

(** The spec that such a string stands for. *)
Definition parsed (o : ascii) (nv : string * string) : spec :=
  mkSpec (fst nv) (String o "") (snd nv).

(** Every spec of [fs] holds on the page when read under the operator [c]. *)
Definition holds_under {Page} (getPageProperty : Page -> string -> propval)
           (c : string) (fs : list spec) (page : Page) : bool :=
  forallb (fun f => spec_holds (getPageProperty page (name f))
                               (mkSpec (name f) c (value f))) fs.

(** Every spec of [fs] holds on the page under its own operator. *)
Definition holds_all {Page} (getPageProperty : Page -> string -> propval)
           (fs : list spec) (page : Page) : bool :=
  forallb (fun f => spec_holds (getPageProperty page (name f)) f) fs.

(** A well-formed pair of property name and value: no [!], [=] or newline
    in the name, no newline in the value. *)
Definition well_formed (nv : string * string) : bool :=
  every name_char (fst nv) && every dot (snd nv).

End Select.

(* ===================================================================== *)
(** * Listing the pages of a query                                        *)
(* ===================================================================== *)

Module Pages.
Import Resolver Iterator Filter.
Local Open Scope Z_scope.

(** [','.join(expand)] *)
Fixpoint join (l : list string) : string :=
  match l with
  | [] => ""
  | [x] => x
  | x :: l' => x ++ "," ++ join l'
  end.

Section Service.
Variable Item : Type.
Variable Page : Type.

(** [findPages] called with the keywords [cql], [expand], [start] and
    [limit] only: the search of the service for the query as it is
    given, [pageSpec] being empty. *)
Variable search : string -> string -> Z -> Z -> Result Item.

(** The constructor of the class of pages, applied to an item and the
    [expand] of the call. *)
Variable wrap : list string -> Item -> Page.
Variable getPageProperty : Page -> string -> propval.

(** The branch of [getPages] for a call without a filter: the items of
    [iterate(cql=cql, expand=expand)], each wrapped into a page.  [expand]
    is the list that [getPages] puts in the place of an empty argument. *)
Definition getPages_all (fuel : nat) (cql : string) (expand : list string)
  : option (list Page) :=
  match iterate (search cql (join expand)) fuel None None with
  | Some r => Some (map (wrap expand) (yielded r))
  | None => None
  end.

(** [getPagesWithProperties]: the query is resolved, the pages are
    listed with [body.view] added to [expand], and the list is filtered. *)
Definition getPagesWithProperties (fuel : nat) (cql : string)
           (page_prop_filter : option (list filter_item)) (expand : list string)
  : option (outcome (list Page)) :=
  let cql := resolveCQL cql in
  match getPages_all fuel cql (expand ++ ["body.view"]) with
  | Some pages =>
      Some (Filter.getPagesWithProperties getPageProperty pages page_prop_filter)
  | None => None
  end.

(** [getPages]: [None] when the fuel does not suffice. *)
Definition getPages (fuel : nat) (cql : string) (expand : list string)
           (filter : option (list filter_item)) : option (outcome (list Page)) :=
  match filter with
  | Some f => getPagesWithProperties fuel cql (Some f) expand
  | None =>
      match getPages_all fuel cql expand with
      | Some pages => Some (Returns pages)
      | None => None
      end
  end.

End Service.

Arguments getPages_all {Item Page}.
Arguments getPagesWithProperties {Item Page}.
Arguments getPages {Item Page}.

(** A service that pages the items it holds for a query and an [expand]. *)
Definition paged_search {Item} (store : string -> string -> list Item)
  : string -> string -> Z -> Z -> Result Item :=
  fun cql expand => paged_remote (store cql expand).

End Pages.


(* ===================================================================== *)
(** * Properties of the matcher                                           *)
(* ===================================================================== *)

Module ReFacts.
Import Re.

Lemma between_nat lo hi c :
  between lo hi c = true <->
  (nat_of_ascii lo <= nat_of_ascii c <= nat_of_ascii hi)%nat.
Proof.
  unfold between. rewrite andb_true_iff, !Nat.leb_le. tauto.
Qed.

Lemma digit_nat c :
  digit c = true <-> (48 <= nat_of_ascii c <= 57)%nat.
Proof. unfold digit. rewrite between_nat. reflexivity. Qed.

Lemma upper_nat c :
  upper c = true <-> (65 <= nat_of_ascii c <= 90)%nat.
Proof. unfold upper. rewrite between_nat. reflexivity. Qed.

Lemma digit_not_upper c : digit c = true -> upper c = false.
Proof.
  intros H. apply digit_nat in H.
  destruct (upper c) eqn:E; [|reflexivity].
  apply upper_nat in E. lia.
Qed.

Lemma digit_not_colon c : digit c = true -> Ascii.eqb ":"%char c = false.
Proof.
  intros H. apply digit_nat in H.
  destruct (Ascii.eqb_spec ":"%char c) as [<-|]; [|reflexivity].
  change (nat_of_ascii ":"%char) with 58%nat in H. lia.
Qed.

Lemma colon_not_upper : upper ":"%char = false.
Proof. reflexivity. Qed.

Lemma append_empty_r (s : string) : s ++ "" = s.
Proof. induction s as [|c s IH]; simpl; [reflexivity | now rewrite IH]. Qed.

(** A greedy run over text that is all in the class hands the whole text
    to the continuation first. *)
Lemma greedy_run {R} p s : forall (k : string -> string -> option R) x,
  every p s = true ->
  k s "" = Some x ->
  greedy p s k = Some x.
Proof.
  induction s as [|c s IH]; intros k x Hall Hk; simpl in *.
  - exact Hk.
  - apply andb_true_iff in Hall. destruct Hall as [Hc Hs].
    rewrite Hc. rewrite (IH (fun g r => k (String c g) r) x Hs Hk).
    reflexivity.
Qed.

(** An anchored pattern can only match at offset 0. *)
Lemma search_from_bol r s : forall pos,
  pos <> 0%nat -> search_from (Bol :: r) pos s = None.
Proof.
  induction s as [|c s IH]; intros pos Hpos; simpl;
    destruct (Nat.eqb_spec pos 0); try contradiction; auto.
Qed.

Lemma search_bol r s : search (Bol :: r) s = match_here (Bol :: r) 0 s.
Proof.
  unfold search. destruct s as [|c s]; simpl.
  - destruct (match_here r 0 ""); reflexivity.
  - destruct (match_here r 0 (String c s)); [reflexivity|].
    apply search_from_bol. discriminate.
Qed.

End ReFacts.

(* ===================================================================== *)
(** * Properties of the resolver                                          *)
(* ===================================================================== *)

Module ResolverFacts.
Import Re ReFacts Resolver.
Local Arguments Ascii.eqb : simpl never.

Example resolve_space_title :
  resolveCQL "DOC:Home: a" = "space = DOC AND title  = " ++ dq ++ "Home: a" ++ dq.
Proof. reflexivity. Qed.

Example resolve_uri : resolveCQL "http://h/rest/api/content/77" = "ID  = 77".
Proof. reflexivity. Qed.

Lemma search_SPACE_PAGE_REF_digits ds :
  every digit ds = true -> search SPACE_PAGE_REF ds = None.
Proof.
  intros H. unfold SPACE_PAGE_REF. rewrite search_bol.
  destruct ds as [|c ds]; [reflexivity|].
  simpl in H. apply andb_true_iff in H. destruct H as [Hc _].
  simpl. rewrite (digit_not_upper c Hc). simpl.
  rewrite (digit_not_colon c Hc). reflexivity.
Qed.

Lemma search_PAGE_REF_digits ds :
  every digit ds = true -> search PAGE_REF ds = None.
Proof.
  intros H. unfold PAGE_REF. rewrite search_bol.
  destruct ds as [|c ds]; [reflexivity|].
  simpl in H. apply andb_true_iff in H. destruct H as [Hc _].
  simpl. rewrite (digit_not_colon c Hc). reflexivity.
Qed.

Lemma search_PAGE_ID_digits ds :
  ds <> "" -> every digit ds = true -> search PAGE_ID ds = Some [ds].
Proof.
  intros Hne H. unfold PAGE_ID. rewrite search_bol.
  destruct ds as [|c ds]; [congruence|].
  simpl in H. apply andb_true_iff in H. destruct H as [Hc Hds].
  simpl. rewrite Hc.
  apply greedy_run; [exact Hds|]. reflexivity.
Qed.

(** C8, as the code has it: a non-empty reference of decimal digits
    resolves to the text [ID], two spaces, an equals sign, one space and
    the same digits. *)
Theorem resolveCQL_digits (ds : string) :
  ds <> "" -> every digit ds = true ->
  resolveCQL ds = "ID  = " ++ ds.
Proof.
  intros Hne H. unfold resolveCQL.
  rewrite (search_SPACE_PAGE_REF_digits ds H).
  rewrite (search_PAGE_REF_digits ds H).
  rewrite (search_PAGE_ID_digits ds Hne H).
  simpl. rewrite append_empty_r. reflexivity.
Qed.

Lemma resolveCQL_digits_witness :
  "12345" <> "" /\ every digit "12345" = true
  /\ resolveCQL "12345" = "ID  = 12345".
Proof.
  split; [discriminate|]. split; [reflexivity|].
  apply (resolveCQL_digits "12345"); [discriminate | reflexivity].
Defined.

(** C8 as stated fails: the query for the reference 12345 is not the text
    with a single space before the equals sign. *)
Lemma resolveCQL_digits_single_space_fails :
  resolveCQL "12345" <> "ID = 12345".
Proof. vm_compute. discriminate. Qed.

(** A reference that none of the four patterns finds is returned
    unchanged, and resolving the result again changes nothing. *)
Lemma resolveCQL_no_match (ref : string) :
  search SPACE_PAGE_REF ref = None ->
  search PAGE_REF ref = None ->
  search PAGE_ID ref = None ->
  search PAGE_URI ref = None ->
  resolveCQL ref = ref /\ resolveCQL (resolveCQL ref) = resolveCQL ref.
Proof.
  intros H1 H2 H3 H4.
  assert (E : resolveCQL ref = ref).
  { unfold resolveCQL. rewrite H1, H2, H3, H4. reflexivity. }
  split; [exact E|]. rewrite E. exact E.
Qed.

(** Whatever the second pattern finds, the first pattern finds too, with
    an empty space key: the branch of the second pattern is never taken. *)
Lemma PAGE_REF_shadowed ref g :
  search PAGE_REF ref = Some g ->
  search SPACE_PAGE_REF ref = Some ("" :: g).
Proof.
  unfold PAGE_REF, SPACE_PAGE_REF. rewrite !search_bol.
  destruct ref as [|c t]; simpl; [discriminate|].
  destruct (Ascii.eqb_spec ":"%char c) as [<-|Hc]; [|discriminate].
  intros H. simpl.
  change (upper ":"%char) with false. cbv iota.
  simpl. simpl in H. rewrite H. reflexivity.
Qed.

(** A title without a newline after a leading colon resolves by the first
    pattern. *)
Lemma resolveCQL_leading_colon t :
  every dot t = true ->
  resolveCQL (":" ++ t) = "space =  AND title  = " ++ dq ++ t ++ dq.
Proof.
  intros H. unfold resolveCQL.
  assert (E : search PAGE_REF (":" ++ t) = Some [t]).
  { unfold PAGE_REF. rewrite search_bol. simpl.
    apply greedy_run; [exact H|]. reflexivity. }
  rewrite (PAGE_REF_shadowed _ _ E). reflexivity.
Qed.

(** C4 on the reference [:Title text]: the first pattern matches with an
    empty space key, so the query is the space-and-title query and not
    the title query. *)
Theorem resolveCQL_colon_title :
  resolveCQL ":Title text" = "space =  AND title  = " ++ dq ++ "Title text" ++ dq
  /\ resolveCQL ":Title text" <> "title = " ++ dq ++ "Title text" ++ dq
  /\ resolveCQL ":Title text" <> "title  = " ++ dq ++ "Title text" ++ dq
  /\ search SPACE_PAGE_REF ":Title text" = Some [""; "Title text"].
Proof.
  repeat split; try reflexivity; vm_compute; discriminate.
Qed.

End ResolverFacts.

(* ===================================================================== *)
(** * Properties of the iterator                                          *)
(* ===================================================================== *)

Module IteratorFacts.
Import Iterator.
Local Open Scope Z_scope.

Section Loop.
Variable Item : Type.

(** With a positive counter the inner loop yields the first [m] pages
    and leaves the counter lowered by their number. *)
Lemma for_pages_spec (rs : list Item) : forall m,
  1 <= m ->
  for_pages rs m =
    (firstn (Z.to_nat m) rs,
     m - Z.of_nat (Nat.min (Z.to_nat m) (length rs))).
Proof.
  induction rs as [|p rest IH]; intros m Hm; simpl.
  - rewrite firstn_nil, Nat.min_0_r. f_equal. lia.
  - destruct (Z.leb_spec (m - 1) 0) as [Hle|Hgt].
    + assert (m = 1) by lia. subst m. simpl. reflexivity.
    + rewrite (IH (m - 1)) by lia.
      replace (Z.to_nat m) with (S (Z.to_nat (m - 1))) by lia.
      simpl. f_equal. lia.
Qed.

(** With a counter that is not positive the inner loop still yields the
    first page of a non-empty listing. *)
Lemma for_pages_nonpositive (p : Item) (rest : list Item) m :
  m <= 0 -> for_pages (p :: rest) m = ([p], m - 1).
Proof.
  intros Hm. simpl. destruct (Z.leb_spec (m - 1) 0); [reflexivity | lia].
Qed.

Lemma for_pages_whole (rs : list Item) m :
  Z.of_nat (length rs) <= m -> 1 <= m ->
  for_pages rs m = (rs, m - Z.of_nat (length rs)).
Proof.
  intros Hlen Hm. rewrite for_pages_spec by exact Hm.
  rewrite firstn_all2 by lia. f_equal. lia.
Qed.
End Loop.

Arguments for_pages_spec {Item}.
Arguments for_pages_whole {Item}.

Lemma serves_tail {Item} (findPages : Z -> Z -> Result Item) start pg pgs lastp :
  serves findPages start (pg :: pgs) lastp ->
  serves findPages (start + 25) pgs lastp.
Proof.
  intros (Hfull & Hlast & Hshort). split; [|split].
  - intros i pg' Hi. destruct (Hfull (S i) pg' Hi) as [E Hlen].
    split; [|exact Hlen].
    rewrite <- E. f_equal. lia.
  - rewrite <- Hlast. f_equal. simpl length. lia.
  - exact Hshort.
Qed.

Lemma windows_S start n :
  windows start (S n) = (start, 25) :: windows (start + 25) n.
Proof.
  unfold windows. cbn [seq map]. f_equal.
  - f_equal. lia.
  - rewrite <- seq_shift, map_map. apply map_ext. intros i.
    f_equal. rewrite Nat2Z.inj_succ. lia.
Qed.

Lemma windows_1 start : windows start 1 = [(start, 25)].
Proof. unfold windows. cbn [seq map]. do 2 f_equal. lia. Qed.

(** Rounds over full pages followed by a short page, with a counter that
    outlasts the full pages and covers the short one. *)
Lemma while_true_serves {Item} (findPages : Z -> Z -> Result Item) lastp :
  forall pgs start m fuel,
    serves findPages start pgs lastp ->
    25 * Z.of_nat (length pgs) < m ->
    25 * Z.of_nat (length pgs) + Z.of_nat (length lastp) <= m ->
    (length pgs < fuel)%nat ->
    while_true findPages fuel start 25 m
    = Some (mkRun (concat pgs ++ lastp) (windows start (S (length pgs)))).
Proof.
  induction pgs as [|pg pgs IH]; intros start m fuel Hs Hm Htot Hfuel.
  - destruct fuel as [|fuel]; [simpl in Hfuel; lia|].
    destruct Hs as (_ & Hlast & Hshort).
    replace (start + 25 * Z.of_nat (length (@nil (list Item)))) with start
      in Hlast by (simpl length; lia).
    simpl length. rewrite windows_1.
    simpl while_true. rewrite Hlast. simpl results. simpl size. simpl limit.
    simpl length in Htot, Hm.
    rewrite for_pages_whole by lia.
    destruct (Z.leb_spec (m - Z.of_nat (length lastp)) 0).
    + reflexivity.
    + destruct (Z.ltb_spec (Z.of_nat (length lastp)) 25); [reflexivity | lia].
  - destruct fuel as [|fuel]; [simpl in Hfuel; lia|].
    pose proof (serves_tail _ _ _ _ _ Hs) as Hs'.
    destruct Hs as (Hfull & _ & _).
    destruct (Hfull 0%nat pg eq_refl) as [E Hlen].
    replace (start + 25 * Z.of_nat 0) with start in E by lia.
    simpl length in Htot, Hm, Hfuel.
    rewrite windows_S.
    simpl while_true. rewrite E. simpl results. simpl size. simpl limit.
    rewrite for_pages_whole by lia. rewrite Hlen.
    destruct (Z.leb_spec (m - Z.of_nat 25) 0); [lia|].
    change (25 <? 25) with false. cbv iota.
    rewrite (IH (start + 25) (m - Z.of_nat 25) fuel Hs') by lia.
    simpl. rewrite <- app_assoc. reflexivity.
Qed.

(** C7, with the bound that the code puts on an iteration without a
    limit: when fewer than 10000000000 items precede the short page, the
    run makes one request per page, each for 25 items at an offset 25
    higher than the one before, yields the pages in order, and ends with
    the short page. *)
Theorem iterate_unlimited_ends_with_short_page
        {Item} (findPages : Z -> Z -> Result Item) start pgs lastp fuel :
  serves findPages start pgs lastp ->
  25 * Z.of_nat (length pgs) < 10000000000 ->
  (length pgs < fuel)%nat ->
  iterate findPages fuel (Some start) None
  = Some (mkRun (concat pgs ++ lastp) (windows start (S (length pgs)))).
Proof.
  intros Hs Hbound Hfuel. unfold iterate.
  change (-1 <? 0) with true. cbv iota.
  pose proof Hs as (_ & _ & Hshort).
  apply while_true_serves; [exact Hs | lia | lia | exact Hfuel].
Qed.

Lemma iterate_unlimited_ends_with_short_page_witness :
  iterate (paged_remote (seq 0 30)) 2 (Some 0) None
  = Some (mkRun (seq 0 30) [(0, 25); (25, 25)]).
Proof.
  apply (iterate_unlimited_ends_with_short_page
           (paged_remote (seq 0 30)) 0 [seq 0 25] (seq 25 5) 2).
  - split; [|split].
    + intros [|[|i]] pg Hi; simpl in Hi; try discriminate.
      injection Hi as <-. split; reflexivity.
    + reflexivity.
    + simpl. lia.
  - simpl. lia.
  - simpl. lia.
Defined.

(** ** The bound of an iteration without a limit *)

Lemma long_remote_full start :
  start < 10000000000 ->
  long_remote start 25 = mkResult (repeat tt 25) 25 25.
Proof.
  intros H. unfold long_remote.
  destruct (Z.ltb_spec start 10000000000); [reflexivity | lia].
Qed.

(** On [long_remote] every finished run that starts with a counter [m]
    and has [m] items to go before the short page makes as many requests
    as [m] items fill pages, and so never asks for the short page. *)
Lemma while_true_long_remote : forall fuel start m r,
  0 < m -> start + m = 10000000000 ->
  while_true long_remote fuel start 25 m = Some r ->
  Z.of_nat (length (requests r)) = (m + 24) / 25.
Proof.
  induction fuel as [|fuel IH]; intros start m r Hm Hsum Hrun.
  - discriminate.
  - simpl while_true in Hrun. rewrite long_remote_full in Hrun by lia.
    cbn [results size limit] in Hrun.
    rewrite for_pages_spec in Hrun by lia.
    rewrite repeat_length in Hrun.
    destruct (Z.leb_spec (m - Z.of_nat (Nat.min (Z.to_nat m) 25)) 0) as [Hle|Hgt].
    + injection Hrun as <-. simpl requests. simpl length.
      assert (m <= 25) by lia.
      change (Z.of_nat 1) with 1.
      apply Z.div_unique with (r := m - 1); lia.
    + change (25 <? 25) with false in Hrun. cbv iota in Hrun.
      assert (25 < m) by lia.
      replace (m - Z.of_nat (Nat.min (Z.to_nat m) 25)) with (m - 25) in Hrun by lia.
      destruct (while_true long_remote fuel (start + 25) 25 (m - 25)) as [r'|] eqn:E;
        [|discriminate].
      injection Hrun as <-. simpl requests. simpl length.
      rewrite Nat2Z.inj_succ.
      rewrite (IH (start + 25) (m - 25) r') by (assumption || lia).
      replace (m + 24) with ((m - 25 + 24) + 1 * 25) by lia.
      rewrite Z.div_add by lia. lia.
Qed.

Lemma serves_long_remote (k : nat) :
  Z.of_nat k = 400000000 ->
  serves long_remote 0 (repeat (repeat tt 25) k) [tt].
Proof.
  intros Hk. split; [|split].
  - intros i pg Hi.
    assert (Hin : In pg (repeat (repeat tt 25) k))
      by (eapply nth_error_In; exact Hi).
    apply repeat_spec in Hin. subst pg.
    assert (Hlt : (i < length (repeat (repeat tt 25) k))%nat)
      by (apply nth_error_Some; rewrite Hi; discriminate).
    rewrite repeat_length in Hlt.
    split; [|reflexivity].
    apply long_remote_full. lia.
  - rewrite repeat_length. unfold long_remote.
    destruct (Z.ltb_spec (0 + 25 * Z.of_nat k) 10000000000); [lia | reflexivity].
  - simpl. lia.
Qed.

(** C7 as stated fails: [long_remote] serves 400000000 full pages and
    then a short page, and the iteration without a limit ends before it
    asks for the short page. *)
Lemma iterate_unlimited_misses_short_page : ~ ends_with_short_page_unbounded.
Proof.
  intros Hclaim.
  pose (k := Z.to_nat 400000000).
  assert (Hk : Z.of_nat k = 400000000) by (unfold k; apply Z2Nat.id; lia).
  clearbody k.
  destruct (Hclaim long_remote 0 (repeat (repeat tt 25) k) [tt]
                   (serves_long_remote k Hk)) as [fuel Hrun].
  unfold iterate in Hrun. change (-1 <? 0) with true in Hrun. cbv iota in Hrun.
  apply while_true_long_remote in Hrun; [|lia|lia].
  simpl requests in Hrun. unfold windows in Hrun.
  rewrite length_map, length_seq, repeat_length in Hrun.
  rewrite Nat2Z.inj_succ, Hk in Hrun.
  change ((10000000000 + 24) / 25) with 400000000 in Hrun. lia.
Qed.

(** ** An explicit limit *)

Lemma firstn_plus {A} (l : list A) a b :
  (a <= length l)%nat ->
  firstn (a + b) l = (firstn a l ++ firstn b (skipn a l))%list.
Proof.
  revert l. induction a as [|a IH]; intros l Ha; simpl.
  - reflexivity.
  - destruct l as [|x l]; simpl in *; [lia|].
    f_equal. apply IH. lia.
Qed.

(** Against [paged_remote xs], a positive counter [m] yields the first
    [m] of the items from [start] on. *)
Lemma while_true_paged {Item} (xs : list Item) : forall n start m,
  0 <= start -> 1 <= m ->
  (length (skipn (Z.to_nat start) xs) <= n)%nat ->
  exists r,
    while_true (paged_remote xs) (S n) start 25 m = Some r
    /\ yielded r = firstn (Z.to_nat m) (skipn (Z.to_nat start) xs).
Proof.
  induction n as [|n IH]; intros start m Hstart Hm Hlen.
  - assert (E : skipn (Z.to_nat start) xs = []) by
      (destruct (skipn (Z.to_nat start) xs); [reflexivity | simpl in Hlen; lia]).
    assert (Hres : paged_remote xs start 25 = mkResult [] 0 25)
      by (unfold paged_remote; rewrite E; reflexivity).
    cbn [while_true]. rewrite Hres. cbn [results size limit for_pages].
    destruct (Z.leb_spec m 0); [lia|].
    change (0 <? 25) with true. cbv iota.
    eexists. split; [reflexivity|]. cbn [yielded].
    rewrite E, firstn_nil. reflexivity.
  - set (rem := skipn (Z.to_nat start) xs) in *.
    set (rs := firstn 25 rem).
    assert (Hrs : (length rs = Nat.min 25 (length rem))%nat)
      by (unfold rs; apply length_firstn).
    assert (Hres : paged_remote xs start 25 = mkResult rs (Z.of_nat (length rs)) 25)
      by reflexivity.
    remember (S n) as fuel eqn:Efuel.
    cbn [while_true]. subst fuel. rewrite Hres. cbn [results size limit].
    rewrite for_pages_spec by exact Hm.
    destruct (Z.leb_spec (m - Z.of_nat (Nat.min (Z.to_nat m) (length rs))) 0) as [Hle|Hgt].
    + eexists. split; [reflexivity|]. cbn [yielded].
      unfold rs. rewrite firstn_firstn. f_equal. lia.
    + assert (Hmore : (length rs < Z.to_nat m)%nat) by lia.
      rewrite (firstn_all2 rs) by lia.
      destruct (Z.ltb_spec (Z.of_nat (length rs)) 25) as [Hshort|Hfull].
      * eexists. split; [reflexivity|]. cbn [yielded].
        unfold rs. rewrite !firstn_all2 by lia. reflexivity.
      * assert (Hlen25 : length rs = 25%nat) by lia.
        destruct (IH (start + 25) (m - Z.of_nat (Nat.min (Z.to_nat m) (length rs))))
          as (r & Hr & Hy); [lia | lia | |].
        { replace (Z.to_nat (start + 25)) with (25 + Z.to_nat start)%nat by lia.
          rewrite <- skipn_skipn. fold rem. rewrite length_skipn. lia. }
        rewrite Hr. eexists. split; [reflexivity|]. cbn [yielded].
        rewrite Hy.
        replace (Z.to_nat (start + 25)) with (25 + Z.to_nat start)%nat by lia.
        rewrite <- skipn_skipn. fold rem.
        replace (Z.to_nat (m - Z.of_nat (Nat.min (Z.to_nat m) (length rs))))
          with (Z.to_nat m - 25)%nat by lia.
        replace (Z.to_nat m) with (25 + (Z.to_nat m - 25))%nat at 2 by lia.
        rewrite firstn_plus by lia. reflexivity.
Qed.

(** With a limit of one or more, [iterate] yields the first
    [min limit total] items from [start] on, in the order of the remote. *)
Lemma iterate_limit_positive {Item} (xs : list Item) start limit :
  0 <= start -> 1 <= limit ->
  exists fuel r,
    iterate (paged_remote xs) fuel (Some start) (Some limit) = Some r
    /\ yielded r = firstn (Z.to_nat limit) (skipn (Z.to_nat start) xs)
    /\ Z.of_nat (length (yielded r))
       = Z.min limit (Z.of_nat (length (skipn (Z.to_nat start) xs))).
Proof.
  intros Hstart Hlimit.
  destruct (while_true_paged xs (length (skipn (Z.to_nat start) xs)) start limit)
    as (r & Hr & Hy); [lia | lia | lia |].
  exists (S (length (skipn (Z.to_nat start) xs))), r.
  unfold iterate. destruct (Z.ltb_spec limit 0); [lia|].
  split; [exact Hr|]. split; [exact Hy|].
  rewrite Hy, length_firstn. lia.
Qed.

(** C2 at the limit 0, on a remote that holds three items: the first item
    is yielded before the counter is looked at, so one item comes out
    where [min 0 3] is none. *)
Theorem iterate_limit_zero_yields_one :
  iterate (paged_remote ["p1"; "p2"; "p3"]%string) 1 None (Some 0)
  = Some (mkRun ["p1"%string] [(0, 25)])
  /\ Z.of_nat (length ["p1"%string])
     <> Z.min 0 (Z.of_nat (length ["p1"; "p2"; "p3"]%string)).
Proof. split; [reflexivity | discriminate]. Qed.

End IteratorFacts.

(* ===================================================================== *)
(** * Properties of the property filter                                   *)
(* ===================================================================== *)

Module FilterFacts.
Import Re Filter.

Section Filterer.
Variable Page : Type.
Variable getProp : Page -> string -> propval.

(** An item with no filter spec passes, whatever [cmp] is. *)
Lemma page_prop_filterer_no_specs cmp page :
  page_prop_filterer getProp [] cmp page = Returns true.
Proof. reflexivity. Qed.

(** Once [cmp] is bound to [c], every spec is read under [c]. *)
Lemma for_filters_under_cmp c fs : forall page result,
  for_filters getProp (Some c) fs page result
  = Returns (result &&
             forallb (fun f => spec_holds (getProp page (name f))
                                          (mkSpec (name f) c (value f))) fs).
Proof.
  induction fs as [|f fs IH]; intros page result; simpl.
  - now rewrite andb_true_r.
  - rewrite IH. f_equal. unfold spec_holds. simpl.
    destruct (String.eqb c "="), (getProp page (name f));
      now rewrite andb_assoc.
Qed.

(** While [cmp] is unbound, a non-empty list of specs raises. *)
Lemma page_prop_filterer_unbound f fs page :
  page_prop_filterer getProp (f :: fs) None page = NameError.
Proof. reflexivity. Qed.

(** A single spec parsed from a string is read under its own operator. *)
Lemma page_prop_filterer_single f page :
  page_prop_filterer getProp [f] (Some (cmp f)) page
  = Returns (spec_holds (getProp page (name f)) f).
Proof.
  unfold page_prop_filterer. simpl length. cbv iota.
  change ((1 =? 0)%nat) with false. cbv iota.
  rewrite for_filters_under_cmp. simpl.
  rewrite andb_true_r. destruct f; reflexivity.
Qed.
End Filterer.

Example parse_equals :
  search PAGE_PROP_FILTER "labels==public" = Some ["labels"; "="; "public"].
Proof. reflexivity. Qed.

Example parse_not_equals :
  search PAGE_PROP_FILTER "owner!=bob" = Some ["owner"; "!"; "bob"].
Proof. reflexivity. Qed.

Example filter_one_equality :
  getPagesWithProperties getPageProperty [labelled_page]
    (Some [Str "labels==public"]) = Returns [labelled_page].
Proof. reflexivity. Qed.

Example filter_dicts_only :
  getPagesWithProperties getPageProperty [labelled_page]
    (Some [Dict (mkSpec "labels" "=" "public")]) = NameError.
Proof. reflexivity. Qed.

(** C3 on the filter [labels==public], [owner!=bob] and a page labelled
    draft and public and owned by ann: both specs hold under their own
    operators, yet the page is filtered out, because both are read under
    the operator of the spec parsed last. *)
Theorem filter_reads_last_operator :
  for_items [Str "labels==public"; Str "owner!=bob"] [] None
  = ([mkSpec "labels" "=" "public"; mkSpec "owner" "!" "bob"], Some "!")
  /\ forallb (fun f => spec_holds (labelled_page (name f)) f)
             [mkSpec "labels" "=" "public"; mkSpec "owner" "!" "bob"] = true
  /\ getPagesWithProperties getPageProperty [labelled_page]
       (Some [Str "labels==public"; Str "owner!=bob"]) = Returns [].
Proof. repeat split. Qed.

End FilterFacts.

(* ===================================================================== *)
(** * Properties of the page tree copy                                    *)
(* ===================================================================== *)

Module SyncFacts.
Import Sync.
Local Open Scope list_scope.

(** ** Dicts of titled pages *)

Lemma insert_sorted_perm x l : Permutation.Permutation (insert_sorted x l) (x :: l).
Proof.
  induction l as [|y l IH]; simpl.
  - apply Permutation.Permutation_refl.
  - destruct (String.leb (fst x) (fst y)).
    + apply Permutation.Permutation_refl.
    + eapply Permutation.perm_trans.
      * apply Permutation.perm_skip. exact IH.
      * apply Permutation.perm_swap.
Qed.

Lemma sorted_perm l : Permutation.Permutation (sorted l) l.
Proof.
  induction l as [|x l IH]; simpl.
  - constructor.
  - eapply Permutation.perm_trans; [apply insert_sorted_perm|].
    apply Permutation.perm_skip. exact IH.
Qed.

Lemma sorted_length l : length (sorted l) = length l.
Proof. apply Permutation.Permutation_length, sorted_perm. Qed.

Lemma sorted_keys_NoDup l : NoDup (map fst (sorted l)) <-> NoDup (map fst l).
Proof.
  assert (P : Permutation.Permutation (map fst (sorted l)) (map fst l))
    by (apply Permutation.Permutation_map, sorted_perm).
  split; intros H.
  - eapply Permutation.Permutation_NoDup; [exact P | exact H].
  - eapply Permutation.Permutation_NoDup; [apply Permutation.Permutation_sym, P | exact H].
Qed.

Lemma by_title_keys ps : map fst (by_title ps) = titles ps.
Proof. unfold by_title, titles. rewrite map_map. reflexivity. Qed.

Lemma dict_mem_In k d : dict_mem k d = true <-> In k (map fst d).
Proof.
  unfold dict_mem. rewrite existsb_exists. split.
  - intros ([k' v] & Hin & E). apply String.eqb_eq in E. simpl in E. subst k'.
    apply in_map_iff. exists (k, v). split; [reflexivity | exact Hin].
  - intros H. apply in_map_iff in H. destruct H as ([k' v] & E & Hin).
    simpl in E. subst k'. exists (k, v). split; [exact Hin|].
    apply String.eqb_refl.
Qed.

Lemma dict_set_length k v d :
  length (dict_set k v d) = if dict_mem k d then length d else S (length d).
Proof.
  induction d as [|[k' v'] d IH]; simpl; [reflexivity|].
  destruct (String.eqb k k'); simpl; [reflexivity|].
  rewrite IH. destruct (dict_mem k d); reflexivity.
Qed.

Lemma dict_set_In k v d kv :
  In kv (dict_set k v d) -> kv = (k, v) \/ In kv d.
Proof.
  induction d as [|[k' v'] d IH]; simpl.
  - intros [<-|[]]. now left.
  - destruct (String.eqb k k'); simpl.
    + intros [<-|H]; [now left | now right; right].
    + intros [<-|H]; [now right; left|].
      destruct (IH H) as [E|E]; [now left | now right; right].
Qed.

Lemma dict_set_keys k v d x :
  In x (map fst (dict_set k v d)) <-> x = k \/ In x (map fst d).
Proof.
  induction d as [|[k' v'] d IH]; simpl.
  - split; [intros [E|[]]; now left | intros [E|[]]; now left].
  - destruct (String.eqb_spec k k') as [<-|Hne]; simpl.
    + split; [intros [E|H]; [now left | now right; right]
             | intros [E|[E|H]]; [now left | now left | now right]].
    + rewrite IH.
      split; [intros [E|[E|H]]; [now right; left | now left | now right; right]
             | intros [E|[E|H]]; [now right; left | now left | now right; right]].
Qed.

Lemma fold_dict_length l : forall d,
  length (fold_left dict_step l d) <= length d + length l.
Proof.
  induction l as [|[k v] l IH]; intros d; simpl; [lia|].
  change (dict_step d (k, v)) with (dict_set k v d).
  specialize (IH (dict_set k v d)). rewrite dict_set_length in IH.
  destruct (dict_mem k d); lia.
Qed.

Lemma fold_dict_full l : forall d,
  length (fold_left dict_step l d) = length d + length l ->
  NoDup (map fst l) /\ forall x, In x (map fst l) -> ~ In x (map fst d).
Proof.
  induction l as [|[k v] l IH]; intros d H; simpl in *.
  - split; [constructor | intros x []].
  - change (dict_step d (k, v)) with (dict_set k v d) in H.
    pose proof (fold_dict_length l (dict_set k v d)) as Hle.
    rewrite dict_set_length in Hle.
    destruct (dict_mem k d) eqn:Hmem; [lia|].
    destruct (IH (dict_set k v d)) as [Hnd Hdis].
    { rewrite dict_set_length, Hmem. simpl. lia. }
    assert (Hk : ~ In k (map fst d)).
    { intros Hin. apply dict_mem_In in Hin. congruence. }
    split.
    + constructor; [|exact Hnd].
      intros Hin. apply (Hdis k Hin). apply dict_set_keys. now left.
    + intros x [<-|Hin]; [exact Hk|].
      intros Hd. apply (Hdis x Hin). apply dict_set_keys. now right.
Qed.

Lemma fold_dict_NoDup l : forall d,
  NoDup (map fst l) -> (forall x, In x (map fst l) -> ~ In x (map fst d)) ->
  length (fold_left dict_step l d) = length d + length l.
Proof.
  induction l as [|[k v] l IH]; intros d Hnd Hdis; simpl in *; [lia|].
  inversion Hnd as [|? ? Hk Hnd']; subst.
  change (dict_step d (k, v)) with (dict_set k v d).
  rewrite IH.
  - rewrite dict_set_length.
    destruct (dict_mem k d) eqn:Hmem; [|lia].
    apply dict_mem_In in Hmem. exfalso. apply (Hdis k); [now left | exact Hmem].
  - exact Hnd'.
  - intros x Hin Hd.
    apply dict_set_keys in Hd. destruct Hd as [->|Hd]; [contradiction|].
    apply (Hdis x); [now right | exact Hd].
Qed.

(** The test of the two [assert]s: the dict has as many keys as the list
    has pairs exactly when no title occurs twice. *)
Lemma dict_of_length l :
  length (dict_of l) = length l <-> NoDup (map fst l).
Proof.
  unfold dict_of. change (fun d kv => dict_set (fst kv) (snd kv) d) with dict_step.
  split.
  - intros H. apply (fold_dict_full l []). simpl. exact H.
  - intros H. apply (fold_dict_NoDup l [] H). intros x _ [].
Qed.

Lemma fold_dict_In l : forall d kv,
  In kv (fold_left dict_step l d) -> In kv d \/ In kv l.
Proof.
  induction l as [|[k v] l IH]; intros d kv H; simpl in *; [now left|].
  destruct (IH _ _ H) as [Hd|Hl]; [|now right; right].
  change (dict_step d (k, v)) with (dict_set k v d) in Hd.
  apply dict_set_In in Hd. destruct Hd as [->|Hd]; [now right; left | now left].
Qed.

Lemma dict_of_In l kv : In kv (dict_of l) -> In kv l.
Proof.
  unfold dict_of. change (fun d kv => dict_set (fst kv) (snd kv) d) with dict_step.
  intros H. destruct (fold_dict_In _ _ _ H) as [[]|H']. exact H'.
Qed.

Lemma fold_dict_keys l : forall d x,
  In x (map fst (fold_left dict_step l d)) <-> In x (map fst d) \/ In x (map fst l).
Proof.
  induction l as [|[k v] l IH]; intros d x; simpl.
  - tauto.
  - rewrite IH. change (dict_step d (k, v)) with (dict_set k v d).
    rewrite dict_set_keys. intuition (subst; auto).
Qed.

Lemma dict_of_keys l x : In x (map fst (dict_of l)) <-> In x (map fst l).
Proof.
  unfold dict_of. change (fun d kv => dict_set (fst kv) (snd kv) d) with dict_step.
  rewrite fold_dict_keys. simpl. tauto.
Qed.

(** ** Outcomes and requests of the operations *)

Section Footprint.
Variable World : Type.
Variable sr : method -> string -> params -> World -> response * World.

Lemma run_ret {A} (a : A) (Q : A -> Prop) P : Q a -> run World (ret a) Q P.
Proof.
  intros Ha st r st' E. injection E as <- <-. split.
  - intros a' E. injection E as <-. exact Ha.
  - exists []. split; [unfold sent; now rewrite app_nil_r | constructor].
Qed.

Lemma run_raise {A} e (Q : A -> Prop) P : run World (raise e) Q P.
Proof.
  intros st r st' E. injection E as <- <-. split.
  - intros a' E. discriminate.
  - exists []. split; [unfold sent; now rewrite app_nil_r | constructor].
Qed.

Lemma run_out_of_fuel {A} (Q : A -> Prop) P : run World out_of_fuel Q P.
Proof.
  intros st r st' E. injection E as <- <-. split.
  - intros a' E. discriminate.
  - exists []. split; [unfold sent; now rewrite app_nil_r | constructor].
Qed.

Lemma run_bind {A B} (c : M World A) (k : A -> M World B) Q1 Q2 P :
  run World c Q1 P -> (forall a, Q1 a -> run World (k a) Q2 P) -> run World (bind c k) Q2 P.
Proof.
  intros Hc Hk st r st' E. unfold bind in E.
  destruct (c st) as [[a|e|] st1] eqn:Ec;
    destruct (Hc _ _ _ Ec) as [Hq (l1 & Hl1 & HP1)].
  - destruct (Hk a (Hq a eq_refl) _ _ _ E) as [Hq2 (l2 & Hl2 & HP2)].
    split; [exact Hq2|]. exists (l1 ++ l2). split.
    + unfold sent in *. rewrite Hl2, Hl1, app_assoc. reflexivity.
    + apply Forall_app. split; assumption.
  - injection E as <- <-. split; [intros a E; discriminate|].
    exists l1. split; assumption.
  - injection E as <- <-. split; [intros a E; discriminate|].
    exists l1. split; assumption.
Qed.

Lemma run_weaken {A} (c : M World A) (Q Q' : A -> Prop) (P P' : call -> Prop) :
  (forall a, Q a -> Q' a) -> (forall x, P x -> P' x) ->
  run World c Q P -> run World c Q' P'.
Proof.
  intros HQ HP Hc st r st' E. destruct (Hc _ _ _ E) as [Hq (l & Hl & Hf)].
  split; [intros a Ha; apply HQ, Hq, Ha|].
  exists l. split; [exact Hl|]. eapply Forall_impl; [exact HP | exact Hf].
Qed.

Lemma run_for_each {A} (l : list A) (body : A -> M World unit) P :
  (forall x, In x l -> run World (body x) (fun _ => True) P) ->
  run World (for_each l body) (fun _ => True) P.
Proof.
  induction l as [|x l IH]; intros H; simpl.
  - apply run_ret. exact I.
  - eapply run_bind; [apply H; now left|].
    intros _ _. apply IH. intros y Hy. apply H. now right.
Qed.

Lemma run_assert b P : run World (@assert_ World b) (fun _ => True) P.
Proof. destruct b; [apply run_ret; exact I | apply run_raise]. Qed.

(** A request is logged once, whatever the answer. *)
Lemma request_sent m endpoint ps st r st' :
  request World sr m endpoint ps st = (r, st') ->
  sent st st' [mkCall m endpoint ps].
Proof.
  unfold request, sent. destruct (sr m endpoint ps (remote st)) as [resp w].
  destruct resp as [status text body|].
  - destruct (400 <=? status)%Z; [|destruct (String.eqb text "")];
      intros E; injection E as <- <-; reflexivity.
  - intros E; injection E as <- <-; reflexivity.
Qed.

Lemma run_request m endpoint ps (P : call -> Prop) :
  P (mkCall m endpoint ps) ->
  run World (request World sr m endpoint ps) (fun _ => True) P.
Proof.
  intros HP st r st' E. split; [intros; exact I|].
  exists [mkCall m endpoint ps]. split; [eapply request_sent; exact E|].
  constructor; [exact HP | constructor].
Qed.

(** [getPage] returns an object: the result of [Page(...)] is never
    [None]; a missing page shows as the [ConfluenceError] of [request]. *)
Lemma run_getPage page_id expand (P : call -> Prop) :
  P (mkCall GET (content_url page_id) (Expand expand)) ->
  run World (getPage World sr page_id expand) (fun v => v <> PyNone) P.
Proof.
  intros HP. unfold getPage. eapply run_bind.
  - apply run_request. exact HP.
  - intros data _. apply run_ret. unfold Page. discriminate.
Qed.

Lemma getPage_not_found page_id expand st status text body w :
  sr GET (content_url page_id) (Expand expand) (remote st)
  = (Response status text body, w) ->
  (400 <= status)%Z ->
  getPage World sr page_id expand st
  = (Raise (ConfluenceError text),
     mkState w (log st ++ [mkCall GET (content_url page_id) (Expand expand)])).
Proof.
  intros E Hs. unfold getPage, bind, get, request. rewrite E.
  destruct (Z.leb_spec 400 status); [reflexivity | lia].
Qed.

Lemma run_getChildren page_id type (P : call -> Prop) :
  (forall e, P (mkCall GET e (Expand ""))) ->
  run World (getChildren World sr page_id type) (fun _ => True) P.
Proof.
  intros HP. unfold getChildren. eapply run_bind.
  - apply run_request. apply HP.
  - intros data _. destruct data; [apply run_raise | apply run_raise |].
    apply run_ret. exact I.
Qed.

Lemma run_item_page key v P : run World (@item_page World key v) (fun _ => True) P.
Proof.
  destruct v as [|[| |]]; simpl;
    [apply run_raise | apply run_raise | apply run_ret; exact I | apply run_raise].
Qed.

Lemma run_item_id v P : run World (@item_id World v) (fun _ => True) P.
Proof.
  unfold item_id. eapply run_bind; [apply run_item_page|].
  intros p _. apply run_ret. exact I.
Qed.

Lemma run_item_title v P : run World (@item_title World v) (fun _ => True) P.
Proof.
  unfold item_title. eapply run_bind; [apply run_item_page|].
  intros p _. apply run_ret. exact I.
Qed.

Lemma run_item_version v P : run World (@item_version World v) (fun _ => True) P.
Proof.
  unfold item_version. eapply run_bind; [apply run_item_page|].
  intros p _. destruct (page_version p); [apply run_ret; exact I | apply run_raise].
Qed.

Lemma run_item_storage v P : run World (@item_storage World v) (fun _ => True) P.
Proof.
  unfold item_storage. eapply run_bind; [apply run_item_page|].
  intros p _. destruct (page_storage p); [apply run_ret; exact I | apply run_raise].
Qed.

Lemma run_children_of v (P : call -> Prop) :
  (forall e, P (mkCall GET e (Expand ""))) ->
  run World (children_of World sr v) (fun _ => True) P.
Proof.
  intros HP. unfold children_of. eapply run_bind; [apply run_item_id|].
  intros id _. apply run_getChildren. exact HP.
Qed.

Lemma run_updatePage id title version storage (P : call -> Prop) :
  P (mkCall PUT ("/rest/api/content/" ++ id) (UpdateData version title storage)) ->
  run World (updatePage World sr id title version storage) (fun _ => True) P.
Proof.
  intros HP. unfold updatePage.
  eapply run_bind with (Q1 := fun _ => True); [apply run_request; exact HP|].
  intros data _. apply run_ret. exact I.
Qed.

(** The first part of [copyPage] sends the two fetches and, when both
    succeed, an update: the test [target_page is None] never holds, so
    no page is created. *)
Lemma run_copyPage_target source target parent space :
  run World (copyPage_target World sr source target parent space)
      (fun _ => True) get_or_put.
Proof.
  unfold copyPage_target.
  eapply run_bind; [apply run_getPage with (P := get_or_put); now left|].
  intros source_page _.
  eapply run_bind; [apply run_getPage with (P := get_or_put); now left|].
  intros target_page Htp.
  destruct target_page as [|j]; [congruence|].
  eapply run_bind; [apply run_item_id|]. intros id _.
  eapply run_bind; [apply run_item_version|]. intros version _.
  eapply run_bind; [apply run_item_title|]. intros title _.
  eapply run_bind; [apply run_item_storage|]. intros storage _.
  eapply run_bind; [apply run_updatePage; now right|].
  intros _ _. apply run_ret. exact I.
Qed.

Lemma children_of_sent v st ps st' :
  children_of World sr v st = (Ok ps, st') ->
  exists e, sent st st' [mkCall GET e (Expand "")].
Proof.
  unfold children_of, item_id, item_page, bind.
  destruct v as [|[|p|]]; simpl; try discriminate.
  unfold getChildren, bind, get.
  destruct (request World sr GET _ (Expand "") st) as [[data|e|] st1] eqn:E;
    try discriminate.
  apply request_sent in E.
  destruct data; simpl; try discriminate.
  intros H. injection H as <- <-. eexists. exact E.
Qed.

Lemma has_duplicate_NoDup l : has_duplicate l = true <-> ~ NoDup l.
Proof.
  induction l as [|x l IH]; simpl.
  - split; [discriminate | intros H; exfalso; apply H; constructor].
  - rewrite orb_true_iff, IH, existsb_exists. split.
    + intros [(y & Hin & E)|H] Hnd; inversion Hnd; subst.
      * apply String.eqb_eq in E. subst y. contradiction.
      * contradiction.
    + intros H. destruct (in_dec string_dec x l) as [Hin|Hout].
      * left. exists x. split; [exact Hin | apply String.eqb_refl].
      * right. intros Hnd. apply H. constructor; assumption.
Qed.

Lemma sorted_by_title_NoDup ps :
  NoDup (map fst (sorted (by_title ps))) <-> NoDup (titles ps).
Proof. rewrite sorted_keys_NoDup, by_title_keys. reflexivity. Qed.

(** ** The loops over the children *)

Variable deletePage : string -> M World value.

(** With a title that occurs twice on either side, the part after the
    fetches raises at an [assert], in the state it was entered in. *)
Lemma copy_children_duplicates copy target_page cs ct delete st :
  has_duplicate (titles cs) = true \/ has_duplicate (titles ct) = true ->
  copy_children World deletePage copy target_page
                (sorted (by_title cs)) (sorted (by_title ct)) delete st
  = (Raise AssertionError, st).
Proof.
  intros H. unfold copy_children, bind.
  destruct (Nat.eqb_spec (length (dict_of (sorted (by_title cs))))
                         (length (sorted (by_title cs)))) as [E1|N1];
    [|reflexivity].
  simpl.
  destruct (Nat.eqb_spec (length (dict_of (sorted (by_title ct))))
                         (length (sorted (by_title ct)))) as [E2|N2];
    [|reflexivity].
  exfalso.
  apply dict_of_length, sorted_by_title_NoDup in E1.
  apply dict_of_length, sorted_by_title_NoDup in E2.
  destruct H as [H|H]; apply has_duplicate_NoDup in H; contradiction.
Qed.

(** The loop that deletes sends delete requests for orphans only. *)
Lemma run_prune cs ct :
  only_deletes World deletePage ->
  run World (prune World deletePage (dict_of (sorted (by_title cs)))
                   (dict_of (sorted (by_title ct))))
      (fun _ => True)
      (fun c => call_method c = DELETE -> on_orphan cs ct c).
Proof.
  intros Hdel. unfold prune. apply run_for_each.
  intros [title page] Hin.
  destruct (dict_mem title (dict_of (sorted (by_title cs)))) eqn:Hmem; simpl.
  - apply run_ret. exact I.
  - eapply run_bind with (Q1 := fun _ => True).
    + eapply run_weaken; [| |apply (Hdel (page_id page))].
      * intros; exact I.
      * intros c Hc Hm. exists page. split; [|split].
        -- apply dict_of_In in Hin.
           apply (Permutation_in _ (sorted_perm _)) in Hin.
           unfold by_title in Hin. apply in_map_iff in Hin.
           destruct Hin as (p & E & Hp). injection E as _ <-. exact Hp.
        -- assert (Et : title = page_title page).
           { apply dict_of_In in Hin.
             apply (Permutation_in _ (sorted_perm _)) in Hin.
             unfold by_title in Hin. apply in_map_iff in Hin.
             destruct Hin as (p & E & Hp). injection E as <- <-. reflexivity. }
           rewrite <- Et. intros Hcs.
           assert (Hk : In title (map fst (dict_of (sorted (by_title cs))))).
           { apply dict_of_keys.
             apply (Permutation_in _ (Permutation_sym
                      (Permutation_map fst (sorted_perm (by_title cs))))).
             rewrite by_title_keys. exact Hcs. }
           apply dict_mem_In in Hk. congruence.
        -- apply Hc, Hm.
    + intros _ _. apply run_ret. exact I.
Qed.

Lemma run_copy_children copy target_page ss ts delete (P : call -> Prop) :
  (forall s t p, run World (copy s t p) (fun _ => True) P) ->
  (delete = true ->
   run World (prune World deletePage (dict_of ss) (dict_of ts)) (fun _ => True) P) ->
  run World (copy_children World deletePage copy target_page ss ts delete)
      (fun _ => True) P.
Proof.
  intros Hcopy Hprune. unfold copy_children.
  eapply run_bind; [apply run_assert|]. intros _ _.
  eapply run_bind; [apply run_assert|]. intros _ _.
  eapply run_bind with (Q1 := fun _ => True).
  - apply run_for_each. intros [title page] _.
    eapply run_bind; [apply run_item_id|]. intros tid _.
    eapply run_bind with (Q1 := fun _ => True); [apply Hcopy|].
    intros _ _. apply run_ret. exact I.
  - intros _ _. destruct delete; [apply Hprune; reflexivity|].
    apply run_ret. exact I.
Qed.

Lemma run_subpages source_page target_page (P : call -> Prop) :
  (forall e, P (mkCall GET e (Expand ""))) ->
  run World (subpages World sr source_page target_page) (fun _ => True) P.
Proof.
  intros HP. unfold subpages.
  eapply run_bind; [apply run_children_of; exact HP|]. intros cs _.
  eapply run_bind; [apply run_children_of; exact HP|]. intros ct _.
  apply run_ret. exact I.
Qed.

(** A call without [delete] sends fetches and updates and nothing else,
    at every depth: the recursive calls it makes are again calls
    without [delete]. *)
Lemma copyPage_no_prune fuel : forall source target recursive parent space,
  run World (copyPage World sr deletePage fuel source target recursive
                      parent space false)
      (fun v => v = PyNone) get_or_put.
Proof.
  induction fuel as [|fuel IH]; intros source target recursive parent space.
  - apply run_out_of_fuel.
  - cbn [copyPage].
    eapply run_bind; [apply run_copyPage_target|].
    intros [source_page target_page] _.
    eapply run_bind with (Q1 := fun _ => True).
    + destruct recursive; [|apply run_ret; exact I].
      eapply run_bind; [apply run_subpages; intros e; now left|].
      intros [ss ts] _.
      apply run_copy_children; [|discriminate].
      intros s t p. eapply run_weaken; [| |apply IH]; auto.
    + intros _ _. apply run_ret. reflexivity.
Qed.

(** ** Stepping through [bind] *)

Lemma sent_refl (st : state World) : sent st st [].
Proof. unfold sent. now rewrite app_nil_r. Qed.

Lemma sent_trans (st1 st2 st3 : state World) l1 l2 :
  sent st1 st2 l1 -> sent st2 st3 l2 -> sent st1 st3 (l1 ++ l2).
Proof. unfold sent. intros H1 H2. now rewrite H2, H1, app_assoc. Qed.

Lemma bind_ok {A B} (c : M World A) (k : A -> M World B) st a st1 :
  c st = (Ok a, st1) -> bind c k st = k a st1.
Proof. intros E. unfold bind. now rewrite E. Qed.

Lemma bind_inv {A B} (c : M World A) (k : A -> M World B) st r st' :
  bind c k st = (r, st') ->
  (exists a st1, c st = (Ok a, st1) /\ k a st1 = (r, st'))
  \/ (exists e, c st = (Raise e, st') /\ r = Raise e)
  \/ (c st = (OutOfFuel, st') /\ r = OutOfFuel).
Proof.
  unfold bind. destruct (c st) as [[a|e|] st1]; intros E.
  - left. exists a, st1. split; [reflexivity | exact E].
  - right. left. injection E as <- <-. exists e. split; reflexivity.
  - right. right. injection E as <- <-. split; reflexivity.
Qed.

Lemma bind_Ok_inv {A B} (c : M World A) (k : A -> M World B) st b st' :
  bind c k st = (Ok b, st') ->
  exists a st1, c st = (Ok a, st1) /\ k a st1 = (Ok b, st').
Proof.
  intros E. apply bind_inv in E.
  destruct E as [H|[(e & _ & H)|(_ & H)]]; [exact H | discriminate | discriminate].
Qed.

Lemma get_or_put_not_delete l c :
  Forall get_or_put l -> In c l -> call_method c = DELETE -> False.
Proof.
  intros Hl Hc Hm. rewrite Forall_forall in Hl.
  destruct (Hl c Hc) as [E|E]; congruence.
Qed.

Lemma subpages_inv source_page target_page st r st' :
  subpages World sr source_page target_page st = (r, st') ->
  (exists l, sent st st' l /\ Forall get_or_put l)
  /\ (forall subs, r = Ok subs ->
       exists cs st2 ct,
         children_of World sr source_page st = (Ok cs, st2)
         /\ children_of World sr target_page st2 = (Ok ct, st')
         /\ subs = (sorted (by_title cs), sorted (by_title ct))).
Proof.
  intros E. split.
  - eapply run_subpages; [|exact E]. intros e. now left.
  - intros subs ->. unfold subpages in E.
    apply bind_Ok_inv in E. destruct E as (cs & st2 & E2 & E).
    apply bind_Ok_inv in E. destruct E as (ct & st3 & E3 & E).
    injection E as <- <-. exists cs, st2, ct. repeat split; assumption.
Qed.

(** ** The claims on [copyPage] *)

(** C5: when the call has fetched the children of both pages and a title
    occurs twice among the source children or among the target children,
    [copyPage] raises [AssertionError] in the state it has right after
    the second fetch: between the create-or-update of this level and the
    exception only the two fetches of the children are sent. *)
Theorem copyPage_duplicate_titles
        fuel source target parent space delete
        st source_page target_page st1 cs st2 ct st3 :
  copyPage_target World sr source target parent space st
    = (Ok (source_page, target_page), st1) ->
  children_of World sr source_page st1 = (Ok cs, st2) ->
  children_of World sr target_page st2 = (Ok ct, st3) ->
  has_duplicate (titles cs) = true \/ has_duplicate (titles ct) = true ->
  copyPage World sr deletePage (S fuel) source target true parent space delete st
    = (Raise AssertionError, st3)
  /\ exists e1 e2,
       sent st1 st3 [mkCall GET e1 (Expand ""); mkCall GET e2 (Expand "")].
Proof.
  intros E1 E2 E3 Hdup. split.
  - assert (Esub : subpages World sr source_page target_page st1
                   = (Ok (sorted (by_title cs), sorted (by_title ct)), st3)).
    { unfold subpages.
      rewrite (bind_ok _ _ _ _ _ E2), (bind_ok _ _ _ _ _ E3). reflexivity. }
    cbn [copyPage]. unfold bind. rewrite E1, Esub.
    rewrite copy_children_duplicates by exact Hdup. reflexivity.
  - destruct (children_of_sent _ _ _ _ E2) as [e1 H1].
    destruct (children_of_sent _ _ _ _ E3) as [e2 H2].
    exists e1, e2. apply (sent_trans _ _ _ _ _ H1 H2).
Qed.

(** ** What a call that returns has done *)

Lemma request_Ok_inv m endpoint ps st d st' :
  request World sr m endpoint ps st = (Ok d, st') ->
  exists status text j,
    sr m endpoint ps (remote st) = (Response status text j, remote st')
    /\ (status < 400)%Z
    /\ log st' = log st ++ [mkCall m endpoint ps].
Proof.
  unfold request. destruct (sr m endpoint ps (remote st)) as [resp w].
  destruct resp as [status text body|]; [|discriminate].
  destruct (Z.leb_spec 400 status); [discriminate|].
  intros E. exists status, text, body.
  destruct (String.eqb text ""); injection E as _ <-; auto.
Qed.

Lemma getPage_Ok_inv page_id expand st v st' :
  getPage World sr page_id expand st = (Ok v, st') ->
  exists data, v = Obj data
    /\ log st' = log st ++ [mkCall GET (content_url page_id) (Expand expand)].
Proof.
  unfold getPage. intros E.
  apply bind_Ok_inv in E. destruct E as (data & st1 & E1 & E).
  injection E as <- <-. exists data. split; [reflexivity|].
  apply request_sent in E1. exact E1.
Qed.

Lemma item_page_Ok_inv key v (st : state World) p st' :
  item_page World key v st = (Ok p, st') -> v = Obj (JPage p) /\ st' = st.
Proof.
  destruct v as [|[|q|]]; simpl; try discriminate.
  intros E. injection E as <- <-. auto.
Qed.

Lemma item_id_Ok_inv v (st : state World) id st' :
  item_id World v st = (Ok id, st') ->
  exists p, v = Obj (JPage p) /\ id = page_id p /\ st' = st.
Proof.
  unfold item_id. intros E.
  apply bind_Ok_inv in E. destruct E as (p & st1 & E1 & E).
  apply item_page_Ok_inv in E1. destruct E1 as [-> ->].
  injection E as <- <-. exists p. auto.
Qed.

Lemma item_title_Ok_inv v (st : state World) t st' :
  item_title World v st = (Ok t, st') ->
  exists p, v = Obj (JPage p) /\ t = page_title p /\ st' = st.
Proof.
  unfold item_title. intros E.
  apply bind_Ok_inv in E. destruct E as (p & st1 & E1 & E).
  apply item_page_Ok_inv in E1. destruct E1 as [-> ->].
  injection E as <- <-. exists p. auto.
Qed.

Lemma item_version_Ok_inv v (st : state World) n st' :
  item_version World v st = (Ok n, st') ->
  exists p, v = Obj (JPage p) /\ page_version p = Some n /\ st' = st.
Proof.
  unfold item_version. intros E.
  apply bind_Ok_inv in E. destruct E as (p & st1 & E1 & E).
  apply item_page_Ok_inv in E1. destruct E1 as [-> ->].
  destruct (page_version p) as [k|] eqn:Hv; [|unfold raise in E; discriminate E].
  injection E as <- <-. exists p. auto.
Qed.

Lemma item_storage_Ok_inv v (st : state World) body st' :
  item_storage World v st = (Ok body, st') ->
  exists p, v = Obj (JPage p) /\ page_storage p = Some body /\ st' = st.
Proof.
  unfold item_storage. intros E.
  apply bind_Ok_inv in E. destruct E as (p & st1 & E1 & E).
  apply item_page_Ok_inv in E1. destruct E1 as [-> ->].
  destruct (page_storage p) as [k|] eqn:Hv; [|unfold raise in E; discriminate E].
  injection E as <- <-. exists p. auto.
Qed.

(** The first part of [copyPage], when it returns, has fetched both
    pages and had the update of the target accepted. *)
Lemma copyPage_target_Ok_inv source target parent space st pages st3 :
  copyPage_target World sr source target parent space st = (Ok pages, st3) ->
  updates_target World sr source target st st3.
Proof.
  unfold copyPage_target. intros E.
  apply bind_Ok_inv in E. destruct E as (source_page & st1 & E1 & E).
  apply bind_Ok_inv in E. destruct E as (target_page & st2 & E2 & E).
  destruct (getPage_Ok_inv _ _ _ _ _ E1) as (d1 & -> & L1).
  destruct (getPage_Ok_inv _ _ _ _ _ E2) as (d2 & -> & L2).
  cbv iota in E.
  apply bind_Ok_inv in E. destruct E as (id & sa & Ea & E).
  apply item_id_Ok_inv in Ea. destruct Ea as (tp & Etp & -> & ->).
  injection Etp as ->.
  apply bind_Ok_inv in E. destruct E as (n & sb & Eb & E).
  apply item_version_Ok_inv in Eb. destruct Eb as (tp' & Etp & Hn & ->).
  injection Etp as <-.
  apply bind_Ok_inv in E. destruct E as (title & sc & Ec & E).
  apply item_title_Ok_inv in Ec. destruct Ec as (tp' & Etp & -> & ->).
  injection Etp as <-.
  apply bind_Ok_inv in E. destruct E as (body & sd & Ed & E).
  apply item_storage_Ok_inv in Ed. destruct Ed as (sp & Esp & Hbody & ->).
  injection Esp as ->.
  apply bind_Ok_inv in E. destruct E as (u & se & Ee & E).
  injection E as _ <-.
  unfold updatePage in Ee.
  apply bind_Ok_inv in Ee. destruct Ee as (data & sf & Ef & Ee).
  injection Ee as _ <-.
  apply request_Ok_inv in Ef. destruct Ef as (status & text & j & Ereq & Hs & L3).
  exists sp, tp, n, body, st1, st2, status, text, j.
  repeat split; try assumption.
  rewrite L3, L2, L1, <- !app_assoc. reflexivity.
Qed.


(** C6, as the code has it: [copyPage] has no [return] statement, so a
    call that returns, returns [None]; the target is not handed back.
    What the call has done by then is the update on the service: the
    source and the target were fetched and the service accepted the
    update of the target with the body of the source.  A call that is
    not recursive ends there; a call without [delete] goes on with
    fetches and updates only. *)
Theorem copyPage_updates_and_returns_None
        fuel source target recursive parent space delete st v st' :
  copyPage World sr deletePage fuel source target recursive parent space delete st
    = (Ok v, st') ->
  v = PyNone
  /\ exists st3,
       updates_target World sr source target st st3
       /\ (recursive = false -> st' = st3)
       /\ (delete = false ->
           exists l, sent st3 st' l /\ Forall get_or_put l).
Proof.
  intros E0. pose proof E0 as E.
  destruct fuel as [|fuel]; [discriminate|].
  cbn [copyPage] in E.
  apply bind_Ok_inv in E. destruct E as ([source_page target_page] & st3 & E1 & E).
  apply bind_Ok_inv in E. destruct E as (u & st4 & Eu & E).
  injection E as <- <-. split; [reflexivity|].
  exists st3. split; [eapply copyPage_target_Ok_inv; exact E1|]. split.
  - intros ->. injection Eu as _ <-. reflexivity.
  - intros ->. destruct recursive.
    + match type of Eu with
      | ?X st3 = _ =>
          assert (R : run World X (fun _ => True) get_or_put)
      end.
      { eapply run_bind; [apply run_subpages; intros e; now left|].
        intros [ss ts] _.
        apply run_copy_children; [|discriminate].
        intros s t p. eapply run_weaken; [| |apply copyPage_no_prune]; auto. }
      destruct (R _ _ _ Eu) as [_ Hl]. exact Hl.
    + injection Eu as _ <-. exists []. split; [apply sent_refl | constructor].
Qed.

(** Whatever branch is written for it, no page is created: [copyPage]
    sends no POST, at any depth, unless [deletePage] does. *)
Lemma copyPage_never_creates fuel :
  (forall id, run World (deletePage id) (fun _ => True)
                  (fun c => call_method c <> POST)) ->
  forall source target recursive parent space delete,
    run World (copyPage World sr deletePage fuel source target recursive
                        parent space delete)
        (fun v => v = PyNone) (fun c => call_method c <> POST).
Proof.
  intros Hdel.
  assert (Hgp : forall c, get_or_put c -> call_method c <> POST)
    by (intros c [E|E]; congruence).
  induction fuel as [|fuel IH]; intros source target recursive parent space delete.
  - apply run_out_of_fuel.
  - cbn [copyPage].
    eapply run_bind.
    { eapply run_weaken; [| exact Hgp | apply run_copyPage_target].
      intros a H; exact H. }
    intros [source_page target_page] _.
    eapply run_bind with (Q1 := fun _ => True).
    + destruct recursive; [|apply run_ret; exact I].
      eapply run_bind; [apply run_subpages; intros e; discriminate|].
      intros [ss ts] _.
      apply run_copy_children.
      * intros s t p. eapply run_weaken; [| |apply IH]; auto.
      * intros _. unfold prune. apply run_for_each. intros [title page] _.
        destruct (negb (dict_mem title (dict_of ss))); [|apply run_ret; exact I].
        eapply run_bind with (Q1 := fun _ => True); [apply Hdel|].
        intros _ _. apply run_ret. exact I.
    + intros _ _. apply run_ret. reflexivity.
Qed.

(** C10: in a recursive call with [delete], every delete request sent is
    for a child of the top-level target, as fetched by this call, whose
    title no child of the source has.  The calls made for the children
    are calls without [delete] ([copyPage_no_prune]), so nothing below
    the first level is deleted. *)
Theorem copyPage_prunes_first_level_only
        fuel source target parent space st r st' :
  only_deletes World deletePage ->
  copyPage World sr deletePage fuel source target true parent space true st
    = (r, st') ->
  exists l,
    sent st st' l
    /\ forall c, In c l -> call_method c = DELETE ->
         exists source_page target_page st1 cs st2 ct st3,
           copyPage_target World sr source target parent space st
             = (Ok (source_page, target_page), st1)
           /\ children_of World sr source_page st1 = (Ok cs, st2)
           /\ children_of World sr target_page st2 = (Ok ct, st3)
           /\ on_orphan cs ct c.
Proof.
  intros Hdel E. destruct fuel as [|fuel].
  { injection E as <- <-. exists []. split; [apply sent_refl | intros c []]. }
  cbn [copyPage] in E. apply bind_inv in E.
  destruct E as [(pages & st1 & E1 & E)|[(e & E1 & ->)|(E1 & ->)]];
    destruct (run_copyPage_target _ _ _ _ _ _ _ E1) as [_ (l1 & Hl1 & HP1)].
  2,3: exists l1; split; [exact Hl1|];
       intros c Hc Hm; exfalso; eapply get_or_put_not_delete; eauto.
  destruct pages as [source_page target_page].
  assert (HX : forall rX stX,
             bind (subpages World sr source_page target_page)
                  (fun subs => let '(ss, ts) := subs in
                     copy_children World deletePage
                       (fun source target parent =>
                          copyPage World sr deletePage fuel source target true
                                   parent space false)
                       target_page ss ts true) st1 = (rX, stX) ->
             exists l, sent st1 stX l
               /\ forall c, In c l -> call_method c = DELETE ->
                    exists cs st2 ct st3,
                      children_of World sr source_page st1 = (Ok cs, st2)
                      /\ children_of World sr target_page st2 = (Ok ct, st3)
                      /\ on_orphan cs ct c).
  { intros rX stX EX. apply bind_inv in EX.
    destruct EX as [(subs & st3 & Esub & EC)|[(e & Esub & ->)|(Esub & ->)]];
      destruct (subpages_inv _ _ _ _ _ Esub) as [(l2 & Hl2 & HP2) Hinv].
    2,3: exists l2; split; [exact Hl2|];
         intros c Hc Hm; exfalso; eapply get_or_put_not_delete; eauto.
    destruct (Hinv subs eq_refl) as (cs & st2 & ct & E2 & E3 & ->).
    assert (HC : run World
              (copy_children World deletePage
                 (fun source target parent =>
                    copyPage World sr deletePage fuel source target true
                             parent space false)
                 target_page (sorted (by_title cs)) (sorted (by_title ct)) true)
              (fun _ => True)
              (fun c => call_method c = DELETE -> on_orphan cs ct c)).
    { apply run_copy_children.
      - intros s t p. eapply run_weaken; [| |apply copyPage_no_prune].
        + intros; exact I.
        + intros c [Hc|Hc] Hm; congruence.
      - intros _. apply run_prune. exact Hdel. }
    destruct (HC _ _ _ EC) as [_ (l3 & Hl3 & HP3)].
    exists (l2 ++ l3). split; [eapply sent_trans; eassumption|].
    intros c Hc Hm. apply in_app_or in Hc. destruct Hc as [Hc|Hc].
    - exfalso; eapply get_or_put_not_delete; eauto.
    - rewrite Forall_forall in HP3.
      exists cs, st2, ct, st3. repeat split; try assumption.
      apply HP3; assumption. }
  apply bind_inv in E.
  destruct E as [(u & st4 & EX & Eret)|[(e & EX & ->)|(EX & ->)]];
    destruct (HX _ _ EX) as (l2 & Hl2 & HP2).
  1: injection Eret as <- <-.
  all: exists (l1 ++ l2); (split; [eapply sent_trans; eassumption|]);
    intros c Hc Hm; apply in_app_or in Hc; destruct Hc as [Hc|Hc];
    [ exfalso; eapply get_or_put_not_delete; eauto
    | destruct (HP2 c Hc Hm) as (cs & st2 & ct & st3 & H2 & H3 & Ho);
      exists source_page, target_page, st1, cs, st2, ct, st3;
      repeat split; assumption ].
Qed.


(** When the service answers the fetch of the target with a status of
    400 or more, [copyPage] ends with the [ConfluenceError] of that
    fetch; the branch that creates the target is not entered. *)
Lemma copyPage_missing_target
      fuel source target recursive parent space delete
      st source_page st1 status text body w :
  getPage World sr source "body.storage,space" st = (Ok source_page, st1) ->
  sr GET (content_url target) (Expand "version,space") (remote st1)
    = (Response status text body, w) ->
  (400 <= status)%Z ->
  copyPage World sr deletePage (S fuel) source target recursive parent space delete st
  = (Raise (ConfluenceError text),
     mkState w (log st1 ++ [mkCall GET (content_url target) (Expand "version,space")])).
Proof.
  intros E1 E2 Hs. cbn [copyPage]. unfold copyPage_target.
  unfold bind at 1. unfold bind at 1. rewrite E1.
  unfold bind at 1.
  rewrite (getPage_not_found _ _ _ _ _ _ _ E2 Hs). reflexivity.
Qed.

End Footprint.

(** ** Runs against the in-memory service *)

Import Wiki.

Lemma deletePage_request_only_deletes : only_deletes World deletePage_request.
Proof.
  intros id. unfold deletePage_request.
  eapply run_bind with (Q1 := fun _ => True).
  - apply run_request. intros _. reflexivity.
  - intros data _. apply run_ret. exact I.
Qed.

Lemma deletePage_missing_only_deletes : only_deletes World deletePage_missing.
Proof. intros id. apply run_raise. Qed.

(** C1 on the source tree A{B,C{D}} and the new title NewA: the fetch of
    NewA is answered with 404, [request] raises, and [copyPage] ends with
    that [ConfluenceError] after the two fetches, whatever [deletePage] is
    and however deep the recursion may go: no create call is made where the
    claim has four. *)
Theorem copyPage_new_target_raises deletePage fuel :
  copyPage World serve deletePage (S fuel) "A" "NewA" true None (Some "DOC") false
           (start tree_ABCD)
  = (Raise (ConfluenceError "not found"),
     mkState tree_ABCD
       [mkCall GET "/rest/api/content/A" (Expand "body.storage,space");
        mkCall GET "/rest/api/content/NewA" (Expand "version,space")]).
Proof. reflexivity. Qed.

Example copyPage_matching_tree :
  trace (snd (copyPage World serve deletePage_missing 3 "A" "T" true None None false
                       (start tree_matching)))
  = [(GET, "/rest/api/content/A"); (GET, "/rest/api/content/T");
     (PUT, "/rest/api/content/T");
     (GET, "/rest/api/content/A/child/page");
     (GET, "/rest/api/content/T/child/page");
     (GET, "/rest/api/content/B"); (GET, "/rest/api/content/TB");
     (PUT, "/rest/api/content/TB");
     (GET, "/rest/api/content/B/child/page");
     (GET, "/rest/api/content/TB/child/page")]%string.
Proof. vm_compute. reflexivity. Qed.

(** With the class as it is, the first orphan ends the call. *)
Example copyPage_prune_missing_method :
  fst (copyPage World serve deletePage_missing 3 "A" "T" true None None true
                (start tree_orphans))
  = Raise (AttributeError "deletePage").
Proof. vm_compute. reflexivity. Qed.

(** With a [deletePage] that sends the request, X is deleted and Z, an
    orphan one level down, is not. *)
Example copyPage_prune_orphans :
  let st := snd (copyPage World serve deletePage_request 3 "A" "T" true None None true
                          (start tree_orphans)) in
  filter (fun c => is_delete c) (log st)
  = [mkCall DELETE "/rest/api/content/TX" NoParams]
  /\ lookup "TX" (remote st) = None
  /\ lookup "TZ" (remote st) = Some (mkStored "TZ" "Z" (Some "TB") "old Z" 1).
Proof. vm_compute. repeat split. Qed.

(** Duplicates one level down end the whole call: the counterpart of B is
    updated, and the exception comes before any request for the children
    of B. *)
Example copyPage_nested_duplicates :
  fst (copyPage World serve deletePage_missing 3 "A" "T" true None None false
                (start tree_nested_duplicates))
  = Raise AssertionError
  /\ trace (snd (copyPage World serve deletePage_missing 3 "A" "T" true None None false
                          (start tree_nested_duplicates)))
     = [(GET, "/rest/api/content/A"); (GET, "/rest/api/content/T");
        (PUT, "/rest/api/content/T");
        (GET, "/rest/api/content/A/child/page");
        (GET, "/rest/api/content/T/child/page");
        (GET, "/rest/api/content/B"); (GET, "/rest/api/content/TB");
        (PUT, "/rest/api/content/TB");
        (GET, "/rest/api/content/B/child/page");
        (GET, "/rest/api/content/TB/child/page")]%string.
Proof. split; vm_compute; reflexivity. Qed.

Lemma copyPage_duplicate_titles_witness :
  fst (copyPage World serve deletePage_missing 3 "A" "T" true None None true
                (start tree_duplicates))
  = Raise AssertionError
  /\ trace (snd (copyPage World serve deletePage_missing 3 "A" "T" true None None true
                          (start tree_duplicates)))
     = [(GET, "/rest/api/content/A"); (GET, "/rest/api/content/T");
        (PUT, "/rest/api/content/T");
        (GET, "/rest/api/content/A/child/page");
        (GET, "/rest/api/content/T/child/page")]%string.
Proof.
  pose (st := start tree_duplicates).
  pose (r1 := copyPage_target World serve "A" "T" None None st).
  pose (sp := Obj (JPage (mkPage "A" "A" (Some 3%Z) (Some "body of A"%string)))).
  pose (tp := Obj (JPage (mkPage "T" "T" (Some 7%Z) (Some "old T"%string)))).
  pose (r2 := children_of World serve sp (snd r1)).
  pose (r3 := children_of World serve tp (snd r2)).
  destruct (copyPage_duplicate_titles World serve deletePage_missing
              2 "A" "T" None None true st sp tp (snd r1)
              [mkPage "B1" "B" (Some 2%Z) (Some "first B"%string);
               mkPage "B2" "B" (Some 2%Z) (Some "second B"%string)]
              (snd r2) [] (snd r3)) as [H _].
  - vm_compute. reflexivity.
  - vm_compute. reflexivity.
  - vm_compute. reflexivity.
  - left. vm_compute. reflexivity.
  - fold st. rewrite H. split; vm_compute; reflexivity.
Defined.

Lemma copyPage_updates_and_returns_None_witness :
  let run := copyPage World serve deletePage_missing 3 "A" "T" true None None false
                      (start tree_matching) in
  PyNone = PyNone
  /\ exists st3,
       updates_target World serve "A" "T" (start tree_matching) st3
       /\ (true = false -> snd run = st3)
       /\ (false = false ->
           exists l, sent st3 (snd run) l /\ Forall get_or_put l).
Proof.
  intros run.
  apply (copyPage_updates_and_returns_None World serve deletePage_missing
           3 "A" "T" true None None false (start tree_matching) PyNone (snd run)).
  vm_compute. reflexivity.
Defined.

(** C6 as stated fails: the copy of A{B} onto T{B} returns, and what it
    returns is [None], not a content item. *)
Lemma copyPage_does_not_return_item : ~ copyPage_returns_item.
Proof.
  intros H.
  destruct (H deletePage_missing 3%nat "A"%string "T"%string true None None false
              (start tree_matching) PyNone
              (snd (copyPage World serve deletePage_missing 3 "A" "T" true None None
                             false (start tree_matching))))
    as [p Hp].
  - vm_compute. reflexivity.
  - discriminate.
Qed.

Lemma copyPage_prunes_first_level_only_witness :
  let run := copyPage World serve deletePage_request 3 "A" "T" true None None true
                      (start tree_orphans) in
  exists l,
    sent (start tree_orphans) (snd run) l
    /\ forall c, In c l -> call_method c = DELETE ->
         exists source_page target_page st1 cs st2 ct st3,
           copyPage_target World serve "A" "T" None None (start tree_orphans)
             = (Ok (source_page, target_page), st1)
           /\ children_of World serve source_page st1 = (Ok cs, st2)
           /\ children_of World serve target_page st2 = (Ok ct, st3)
           /\ on_orphan cs ct c.
Proof.
  intros run.
  apply (copyPage_prunes_first_level_only World serve deletePage_request
           3 "A" "T" None None (start tree_orphans) (fst run) (snd run)
           deletePage_request_only_deletes).
  apply surjective_pairing.
Defined.

End SyncFacts.

(* ===================================================================== *)
(** * More on the matcher and the resolver                                *)
(* ===================================================================== *)

Module ResolverMore.
Import Re ReFacts Resolver Text.
Local Arguments Ascii.eqb : simpl never.

Lemma every_app p s r : every p (s ++ r) = every p s && every p r.
Proof.
  induction s as [|c s IH]; simpl; [reflexivity|].
  rewrite IH. apply andb_assoc.
Qed.

(** What a successful greedy run has done: it consumed a prefix in the
    class and the continuation accepted the split. *)
Lemma greedy_inv {R} p s : forall (k : string -> string -> option R) x,
  greedy p s k = Some x ->
  exists g r, s = g ++ r /\ every p g = true /\ k g r = Some x.
Proof.
  induction s as [|c s IH]; intros k x H; simpl in H.
  - exists "", "". auto.
  - destruct (p c) eqn:Hc.
    + destruct (greedy p s (fun g r => k (String c g) r)) as [y|] eqn:E.
      * injection H as <-. apply IH in E. destruct E as (g & r & -> & Hg & Hk).
        exists (String c g), r. simpl. rewrite Hc, Hg. auto.
      * exists "", (String c s). auto.
    + exists "", (String c s). auto.
Qed.

(** A greedy run over text in the class that is followed by the end of the
    text or by a character outside the class. *)
Lemma greedy_run_then {R} p s r : forall (k : string -> string -> option R) x,
  every p s = true ->
  match r with EmptyString => true | String c _ => negb (p c) end = true ->
  k s r = Some x ->
  greedy p (s ++ r) k = Some x.
Proof.
  induction s as [|c s IH]; intros k x Hs Hr Hk; simpl in *.
  - destruct r as [|c r]; simpl; [exact Hk|].
    apply negb_true_iff in Hr. rewrite Hr. exact Hk.
  - apply andb_true_iff in Hs. destruct Hs as [Hc Hs].
    rewrite Hc. rewrite (IH (fun g r0 => k (String c g) r0) x Hs Hr Hk).
    reflexivity.
Qed.

Lemma strip_inv l : forall s s', strip l s = Some s' -> s = l ++ s'.
Proof.
  induction l as [|a l IH]; intros s s' H; simpl in *.
  - now injection H as <-.
  - destruct s as [|b s]; [discriminate|].
    destruct (Ascii.eqb_spec a b) as [<-|]; [|discriminate].
    f_equal. apply IH, H.
Qed.

Lemma strip_app l s : strip l (l ++ s) = Some s.
Proof.
  induction l as [|a l IH]; simpl; [reflexivity|].
  now rewrite Ascii.eqb_refl.
Qed.

Lemma at_eol_inv s : at_eol s = true -> s = "" \/ s = nl.
Proof.
  destruct s as [|c [|d s]]; simpl; try discriminate; auto.
  intros H. apply Ascii.eqb_eq in H. subst c. now right.
Qed.

(** ** The shape of what each pattern finds *)

Lemma SPACE_PAGE_REF_groups s g :
  search SPACE_PAGE_REF s = Some g ->
  exists key title, g = [key; title].
Proof.
  unfold SPACE_PAGE_REF. rewrite search_bol.
  cbn [match_here rep Nat.eqb].
  intros H. apply greedy_inv in H. destruct H as (key & r & _ & _ & H).
  destruct (strip ":" r) as [r'|]; [|discriminate].
  destruct (greedy dot r' _) as [gs|] eqn:E; [|discriminate].
  injection H as <-.
  apply greedy_inv in E. destruct E as (title & r2 & _ & _ & E).
  destruct (at_eol r2); [|discriminate]. injection E as <-.
  exists key, title. reflexivity.
Qed.

Lemma PAGE_ID_groups s g :
  search PAGE_ID s = Some g ->
  exists d, g = [d] /\ every digit d = true.
Proof.
  unfold PAGE_ID. rewrite search_bol.
  cbn [match_here rep Nat.eqb].
  destruct s as [|c s]; [discriminate|].
  destruct (digit c) eqn:Hc; [|discriminate].
  intros H. apply greedy_inv in H. destruct H as (d & r & _ & Hd & H).
  destruct (at_eol r); [|discriminate]. injection H as <-.
  exists (String c d). simpl. rewrite Hc, Hd. auto.
Qed.

Lemma PAGE_URI_here pos s g :
  match_here PAGE_URI pos s = Some g ->
  exists c d tail,
    s = "api/content/" ++ String c d ++ tail
    /\ every digit (String c d) = true
    /\ (tail = "" \/ tail = nl)
    /\ g = [String c d].
Proof.
  unfold PAGE_URI. cbn [match_here].
  destruct (strip "api/content/" s) as [r|] eqn:Es; [|discriminate].
  apply strip_inv in Es. subst s.
  cbn [rep]. destruct r as [|c r]; [discriminate|].
  destruct (digit c) eqn:Hc; [|discriminate].
  intros H. apply greedy_inv in H. destruct H as (d & tail & -> & Hd & H).
  cbn [match_here] in H.
  destruct (at_eol tail) eqn:Ht; [|discriminate]. injection H as <-.
  exists c, d, tail. repeat split.
  - simpl. rewrite Hc, Hd. reflexivity.
  - apply at_eol_inv, Ht.
Qed.

Lemma search_from_inv r : forall s pos g,
  search_from r pos s = Some g ->
  exists pre s2 pos2, s = pre ++ s2 /\ match_here r pos2 s2 = Some g.
Proof.
  induction s as [|c s IH]; intros pos g H; simpl in H.
  - destruct (match_here r pos "") eqn:E; [|discriminate].
    injection H as <-. exists "", "", pos. auto.
  - destruct (match_here r pos (String c s)) eqn:E.
    + injection H as <-. exists "", (String c s), pos. auto.
    + apply IH in H. destruct H as (pre & s2 & pos2 & -> & H).
      exists (String c pre), s2, pos2. auto.
Qed.

Lemma PAGE_URI_groups s g :
  search PAGE_URI s = Some g ->
  exists d, g = [d] /\ every digit d = true.
Proof.
  intros H. apply search_from_inv in H. destruct H as (pre & s2 & pos2 & _ & H).
  apply PAGE_URI_here in H. destruct H as (c & d & tail & _ & Hd & _ & ->).
  exists (String c d). auto.
Qed.

Lemma append_assoc (a b c : string) : (a ++ b) ++ c = a ++ b ++ c.
Proof. induction a as [|x a IH]; simpl; [reflexivity | now rewrite IH]. Qed.

Lemma every_impl (p q : charset) s :
  (forall c, p c = true -> q c = true) -> every p s = true -> every q s = true.
Proof.
  intros Hpq. induction s as [|c s IH]; simpl; [reflexivity|].
  intros H. apply andb_true_iff in H. destruct H as [Hc Hs].
  now rewrite (Hpq c Hc), (IH Hs).
Qed.

(** ** When a pattern finds nothing *)

Lemma SPACE_PAGE_REF_plain s :
  plain_start s = true -> search SPACE_PAGE_REF s = None.
Proof.
  unfold SPACE_PAGE_REF. rewrite search_bol. cbn [match_here rep Nat.eqb].
  destruct s as [|c s]; [reflexivity|]. cbn [plain_start].
  intros H. apply andb_true_iff in H. destruct H as [Hu Hc].
  apply negb_true_iff in Hu. apply negb_true_iff in Hc.
  cbn [greedy]. rewrite Hu. cbn [strip].
  rewrite Ascii.eqb_sym, Hc. reflexivity.
Qed.

Lemma PAGE_REF_after_SPACE s :
  search SPACE_PAGE_REF s = None -> search PAGE_REF s = None.
Proof.
  intros H. destruct (search PAGE_REF s) as [g|] eqn:E; [|reflexivity].
  apply ResolverFacts.PAGE_REF_shadowed in E. congruence.
Qed.

Lemma PAGE_ID_head c s : digit c = false -> search PAGE_ID (String c s) = None.
Proof.
  intros H. unfold PAGE_ID. rewrite search_bol. cbn [match_here rep Nat.eqb].
  now rewrite H.
Qed.

Lemma PAGE_ID_text s g :
  search PAGE_ID s = Some g ->
  every (fun c => digit c || Ascii.eqb c newline) s = true.
Proof.
  unfold PAGE_ID. rewrite search_bol. cbn [match_here rep Nat.eqb].
  destruct s as [|c s]; [discriminate|].
  destruct (digit c) eqn:Hc; [|discriminate].
  intros H. apply greedy_inv in H. destruct H as (d & tail & -> & Hd & H).
  cbn [match_here] in H. destruct (at_eol tail) eqn:Ht; [|discriminate].
  cbn [every]. rewrite Hc. cbn [orb andb]. rewrite every_app.
  apply andb_true_iff. split.
  - eapply every_impl; [|exact Hd]. intros x Hx. now rewrite Hx.
  - apply at_eol_inv in Ht. destruct Ht as [->| ->]; reflexivity.
Qed.

Lemma PAGE_URI_not_a s : forall pos,
  every not_a s = true -> search_from PAGE_URI pos s = None.
Proof.
  induction s as [|c s IH]; intros pos H; [reflexivity|].
  cbn [every] in H. apply andb_true_iff in H. destruct H as [Hc Hs].
  cbn [search_from]. unfold PAGE_URI at 1. cbn [match_here strip].
  unfold not_a in Hc. apply negb_true_iff in Hc.
  rewrite Ascii.eqb_sym, Hc. apply IH, Hs.
Qed.

Lemma digit_not_newline c : digit c = true -> Ascii.eqb c newline = false.
Proof.
  intros H. destruct (Ascii.eqb_spec c newline) as [->|_]; [discriminate H | reflexivity].
Qed.

Lemma ends_digit_cons a c s :
  Ascii.eqb c newline = false ->
  ends_digit (String a (String c s)) = ends_digit (String c s).
Proof.
  intros Hc. cbn [ends_digit]. destruct s as [|d s]; [|reflexivity].
  now rewrite Hc.
Qed.

Lemma ends_digit_run c : forall d tail,
  digit c = true -> every digit d = true -> tail = "" \/ tail = nl ->
  ends_digit (String c (d ++ tail)) = true.
Proof.
  intros d. revert c. induction d as [|x d IH]; intros c tail Hc Hd Ht.
  - destruct Ht as [->| ->]; unfold nl; simpl; exact Hc.
  - cbn [every] in Hd. apply andb_true_iff in Hd. destruct Hd as [Hx Hd].
    change (String c (String x d ++ tail)) with (String c (String x (d ++ tail))).
    rewrite (ends_digit_cons c x _ (digit_not_newline x Hx)).
    apply IH; assumption.
Qed.

Lemma PAGE_URI_ends_digit s : forall pos g,
  search_from PAGE_URI pos s = Some g -> ends_digit s = true.
Proof.
  induction s as [|a s IH]; intros pos g H; cbn [search_from] in H.
  - destruct (match_here PAGE_URI pos "") eqn:E; [|discriminate].
    apply PAGE_URI_here in E. destruct E as (c & d & tail & E & _). discriminate.
  - destruct (match_here PAGE_URI pos (String a s)) eqn:E.
    + apply PAGE_URI_here in E.
      destruct E as (c & d & tail & -> & Hd & Ht & _).
      cbn [every] in Hd. apply andb_true_iff in Hd. destruct Hd as [Hc Hd].
      change ("api/content/" ++ String c d ++ tail)
        with ("api/content" ++ String "/" (String c (d ++ tail))).
      cbn [append].
      rewrite !ends_digit_cons by (reflexivity || apply digit_not_newline, Hc).
      apply ends_digit_run; assumption.
    + pose proof (IH _ _ H) as Hs.
      destruct s as [|c [|c2 s]]; try discriminate.
      * cbn [ends_digit] in Hs |- *.
        destruct (Ascii.eqb_spec c newline) as [->|_]; [discriminate Hs | exact Hs].
      * exact Hs.
Qed.

Lemma ends_digit_quote x : ends_digit (x ++ dq) = false.
Proof.
  induction x as [|c x IH]; [reflexivity|].
  change (String c x ++ dq) with (String c (x ++ dq)).
  destruct x as [|c2 x]; [reflexivity|].
  change (String c2 x ++ dq) with (String c2 (x ++ dq)) in *.
  cbn [ends_digit] in IH |- *.
  destruct (x ++ dq) eqn:E; [|exact IH].
  destruct x; discriminate.
Qed.

(** ** What [resolveCQL] returns *)

(** X1: a reference made of uppercase letters (or of none), a colon and a
    title without a newline resolves to the space-and-title query, with
    the key and the title as they are: further colons stay in the title. *)
Theorem resolveCQL_space_and_title (key title : string) :
  every upper key = true -> every dot title = true ->
  resolveCQL (key ++ ":" ++ title)
  = "space = " ++ key ++ " AND title  = " ++ dq ++ title ++ dq.
Proof.
  intros Hk Ht. unfold resolveCQL.
  assert (E : search SPACE_PAGE_REF (key ++ ":" ++ title) = Some [key; title]).
  { unfold SPACE_PAGE_REF. rewrite search_bol. cbn [match_here rep Nat.eqb].
    apply greedy_run_then; [exact Hk | reflexivity |].
    cbn [append strip]. rewrite Ascii.eqb_refl.
    rewrite (greedy_run dot title _ [title] Ht eq_refl). reflexivity. }
  rewrite E. reflexivity.
Qed.

Lemma resolveCQL_space_and_title_witness :
  resolveCQL "DOC:Home: a" = "space = DOC AND title  = " ++ dq ++ "Home: a" ++ dq.
Proof.
  apply (resolveCQL_space_and_title "DOC" "Home: a"); reflexivity.
Defined.

(** X2: whenever the title pattern (a colon, then the title) matches a
    reference, the space pattern has matched it first, and the result is
    the space-and-title query with an empty key. *)
Theorem resolveCQL_title_pattern_shadowed (ref : string) (g : list string) :
  search PAGE_REF ref = Some g ->
  exists title,
    g = [title]
    /\ resolveCQL ref = "space =  AND title  = " ++ dq ++ title ++ dq.
Proof.
  intros H. apply ResolverFacts.PAGE_REF_shadowed in H.
  destruct (SPACE_PAGE_REF_groups _ _ H) as (key & title & E).
  injection E as <- ->. exists title. split; [reflexivity|].
  unfold resolveCQL. rewrite H. reflexivity.
Qed.

Lemma resolveCQL_title_pattern_shadowed_witness :
  exists title,
    ["Home"] = [title]
    /\ resolveCQL ":Home" = "space =  AND title  = " ++ dq ++ title ++ dq.
Proof.
  apply (resolveCQL_title_pattern_shadowed ":Home" ["Home"]). reflexivity.
Defined.

(** X3: one newline after the digits is not part of the id: the reference
    resolves to the query for the digits alone. *)
Theorem resolveCQL_digits_newline (ds : string) :
  ds <> "" -> every digit ds = true ->
  resolveCQL (ds ++ nl) = "ID  = " ++ ds.
Proof.
  intros Hne Hd. destruct ds as [|c ds]; [congruence|].
  cbn [every] in Hd. apply andb_true_iff in Hd. destruct Hd as [Hc Hd].
  assert (E1 : search SPACE_PAGE_REF (String c ds ++ nl) = None).
  { apply SPACE_PAGE_REF_plain. cbn [append plain_start].
    rewrite (digit_not_upper c Hc), Ascii.eqb_sym, (digit_not_colon c Hc).
    reflexivity. }
  assert (E3 : search PAGE_ID (String c ds ++ nl) = Some [String c ds]).
  { unfold PAGE_ID. rewrite search_bol. cbn [append match_here rep Nat.eqb].
    rewrite Hc. apply greedy_run_then; [exact Hd | reflexivity | reflexivity]. }
  unfold resolveCQL. rewrite E1, (PAGE_REF_after_SPACE _ E1), E3.
  cbn [format]. rewrite append_empty_r. reflexivity.
Qed.

Lemma resolveCQL_digits_newline_witness :
  resolveCQL ("12345" ++ nl) = "ID  = 12345".
Proof.
  apply (resolveCQL_digits_newline "12345"); [discriminate | reflexivity].
Defined.

Lemma resolveCQL_space_query_fixed key title :
  let q := "space = " ++ key ++ " AND title  = " ++ dq ++ title ++ dq in
  resolveCQL q = q.
Proof.
  intros q.
  assert (E1 : search SPACE_PAGE_REF q = None) by (apply SPACE_PAGE_REF_plain; reflexivity).
  assert (E3 : search PAGE_ID q = None) by (apply PAGE_ID_head; reflexivity).
  assert (E4 : search PAGE_URI q = None).
  { destruct (search PAGE_URI q) as [g|] eqn:E; [|reflexivity].
    apply PAGE_URI_ends_digit in E.
    assert (Hq : q = ("space = " ++ key ++ " AND title  = " ++ dq ++ title) ++ dq).
    { unfold q. rewrite !append_assoc. reflexivity. }
    rewrite Hq, ends_digit_quote in E. discriminate. }
  unfold resolveCQL. rewrite E1, (PAGE_REF_after_SPACE _ E1), E3, E4. reflexivity.
Qed.

Lemma digit_not_a c : digit c = true -> not_a c = true.
Proof.
  intros H. unfold not_a. apply negb_true_iff.
  destruct (Ascii.eqb_spec c "a") as [->|_]; [discriminate H | reflexivity].
Qed.

Lemma resolveCQL_id_query_fixed d :
  every digit d = true -> resolveCQL ("ID  = " ++ d) = "ID  = " ++ d.
Proof.
  intros Hd.
  assert (E1 : search SPACE_PAGE_REF ("ID  = " ++ d) = None).
  { unfold SPACE_PAGE_REF. rewrite search_bol. reflexivity. }
  assert (E3 : search PAGE_ID ("ID  = " ++ d) = None) by (apply PAGE_ID_head; reflexivity).
  assert (E4 : search PAGE_URI ("ID  = " ++ d) = None).
  { apply PAGE_URI_not_a. cbn [append every].
    rewrite (every_impl digit not_a d digit_not_a Hd). reflexivity. }
  unfold resolveCQL. rewrite E1, (PAGE_REF_after_SPACE _ E1), E3, E4. reflexivity.
Qed.

(** X4: [resolveCQL] is idempotent on every reference: what it returns is
    a query that it returns unchanged. *)
Theorem resolveCQL_idempotent (ref : string) :
  resolveCQL (resolveCQL ref) = resolveCQL ref.
Proof.
  destruct (search SPACE_PAGE_REF ref) as [g|] eqn:E1.
  { destruct (SPACE_PAGE_REF_groups _ _ E1) as (key & title & ->).
    assert (E : resolveCQL ref
                = "space = " ++ key ++ " AND title  = " ++ dq ++ title ++ dq)
      by (unfold resolveCQL; rewrite E1; reflexivity).
    rewrite E. apply resolveCQL_space_query_fixed. }
  pose proof (PAGE_REF_after_SPACE _ E1) as E2.
  destruct (search PAGE_ID ref) as [g|] eqn:E3.
  { destruct (PAGE_ID_groups _ _ E3) as (d & -> & Hd).
    assert (E : resolveCQL ref = "ID  = " ++ d).
    { unfold resolveCQL. rewrite E1, E2, E3. cbn [format].
      rewrite append_empty_r. reflexivity. }
    rewrite E. apply resolveCQL_id_query_fixed, Hd. }
  destruct (search PAGE_URI ref) as [g|] eqn:E4.
  { destruct (PAGE_URI_groups _ _ E4) as (d & -> & Hd).
    assert (E : resolveCQL ref = "ID  = " ++ d).
    { unfold resolveCQL. rewrite E1, E2, E3, E4. cbn [format].
      rewrite append_empty_r. reflexivity. }
    rewrite E. apply resolveCQL_id_query_fixed, Hd. }
  assert (E : resolveCQL ref = ref)
    by (unfold resolveCQL; rewrite E1, E2, E3, E4; reflexivity).
  rewrite !E. reflexivity.
Qed.

(** ** References that end in a content path *)

Lemma digit_suffix_digits d : every digit d = true -> digit_suffix d = d.
Proof. destruct d as [|c d]; [reflexivity|]. intros H. cbn [digit_suffix]. now rewrite H. Qed.

Lemma digit_suffix_after x c d :
  digit c = false -> every digit d = true ->
  digit_suffix (x ++ String c d) = d.
Proof.
  intros Hc Hd. induction x as [|a x IH].
  - cbn [append digit_suffix every]. rewrite Hc. cbn [andb].
    apply digit_suffix_digits, Hd.
  - change (String a x ++ String c d) with (String a (x ++ String c d)).
    cbn [digit_suffix every]. rewrite every_app. cbn [every]. rewrite Hc.
    rewrite andb_false_r, andb_false_r. exact IH.
Qed.

Lemma PAGE_URI_content pos c d :
  every digit (String c d) = true ->
  match_here PAGE_URI pos ("api/content/" ++ String c d) = Some [String c d].
Proof.
  intros H. cbn [every] in H. apply andb_true_iff in H. destruct H as [Hc Hd].
  unfold PAGE_URI. cbn [match_here]. rewrite strip_app. cbn [rep]. rewrite Hc.
  apply greedy_run; [exact Hd | reflexivity].
Qed.

Lemma search_from_found r s g0 : forall pre pos,
  (forall pos', match_here r pos' s = Some g0) ->
  exists g, search_from r pos (pre ++ s) = Some g.
Proof.
  intros pre. induction pre as [|a pre IH]; intros pos H.
  - cbn [append]. exists g0. destruct s; cbn [search_from]; now rewrite H.
  - change (String a pre ++ s) with (String a (pre ++ s)). cbn [search_from].
    destruct (match_here r pos (String a (pre ++ s))) as [g|]; [now exists g|].
    apply IH, H.
Qed.

(** X5: a reference that ends in the text api/content/ and decimal digits,
    and that does not begin with an uppercase letter or a colon, resolves
    to the id query for those digits, whatever precedes the path. *)
Theorem resolveCQL_content_uri (pre ds : string) :
  plain_start pre = true -> ds <> "" -> every digit ds = true ->
  resolveCQL (pre ++ "api/content/" ++ ds) = "ID  = " ++ ds.
Proof.
  intros Hpre Hne Hd. destruct ds as [|c ds]; [congruence|].
  set (ref := pre ++ "api/content/" ++ String c ds).
  assert (E1 : search SPACE_PAGE_REF ref = None).
  { apply SPACE_PAGE_REF_plain. unfold ref.
    destruct pre as [|a pre]; [reflexivity | exact Hpre]. }
  assert (E3 : search PAGE_ID ref = None).
  { destruct (search PAGE_ID ref) as [g|] eqn:E; [|reflexivity].
    apply PAGE_ID_text in E. unfold ref in E.
    rewrite every_app in E. apply andb_true_iff in E. destruct E as [_ E].
    discriminate E. }
  assert (E4 : search PAGE_URI ref = Some [String c ds]).
  { destruct (search_from_found PAGE_URI ("api/content/" ++ String c ds)
                [String c ds] pre 0%nat) as [g Hg].
    { intros pos'. apply PAGE_URI_content, Hd. }
    unfold search, ref. rewrite Hg. f_equal.
    destruct (search_from_inv _ _ _ _ Hg) as (pre2 & s2 & pos2 & Es & Hm).
    apply PAGE_URI_here in Hm.
    destruct Hm as (c2 & d2 & tail & -> & Hd2 & Ht & ->).
    assert (S1 : digit_suffix (pre ++ "api/content/" ++ String c ds) = String c ds).
    { change (pre ++ "api/content/" ++ String c ds)
        with (pre ++ "api/content" ++ String "/" (String c ds)).
      rewrite <- append_assoc. apply digit_suffix_after; [reflexivity | exact Hd]. }
    rewrite Es in S1. rewrite <- S1.
    destruct Ht as [->| ->].
    - rewrite append_empty_r.
      change (pre2 ++ "api/content/" ++ String c2 d2)
        with (pre2 ++ "api/content" ++ String "/" (String c2 d2)).
      rewrite <- append_assoc.
      rewrite digit_suffix_after; [reflexivity | reflexivity | exact Hd2].
    - exfalso.
      assert (S2 : digit_suffix (pre2 ++ "api/content/" ++ String c2 d2 ++ nl) = "").
      { rewrite <- !append_assoc. unfold nl.
        apply digit_suffix_after; reflexivity. }
      rewrite S2 in S1. discriminate. }
  unfold resolveCQL. rewrite E1, (PAGE_REF_after_SPACE _ E1), E3, E4.
  cbn [format]. rewrite append_empty_r. reflexivity.
Qed.

Lemma resolveCQL_content_uri_witness :
  resolveCQL "http://wiki.example/rest/api/content/4711" = "ID  = 4711".
Proof.
  apply (resolveCQL_content_uri "http://wiki.example/rest/" "4711");
    [reflexivity | discriminate | reflexivity].
Defined.

(** An uppercase scheme is taken for a space key: the first pattern wins. *)
Example resolveCQL_uppercase_scheme :
  resolveCQL "HTTP://wiki.example/rest/api/content/4711"
  = "space = HTTP AND title  = " ++ dq ++ "//wiki.example/rest/api/content/4711" ++ dq.
Proof. reflexivity. Qed.

End ResolverMore.

(* ===================================================================== *)
(** * More on the iterator                                                *)
(* ===================================================================== *)

Module IteratorMore.
Import Iterator IteratorFacts Fetch.
Local Open Scope Z_scope.

Section AnyRemote.
Variable Item : Type.
Variable findPages : Z -> Z -> Result Item.

Lemma for_pages_prefix (rs : list Item) : forall m ys m',
  for_pages rs m = (ys, m') -> exists rest, rs = (ys ++ rest)%list.
Proof.
  induction rs as [|p rs IH]; intros m ys m' H; simpl in H.
  - injection H as <- <-. exists []. reflexivity.
  - destruct (m - 1 <=? 0).
    + injection H as <- <-. exists rs. reflexivity.
    + destruct (for_pages rs (m - 1)) as [ys' m''] eqn:E.
      injection H as <- <-. destruct (IH _ _ _ E) as [rest ->].
      exists rest. reflexivity.
Qed.

(** The counter goes down by the number of items yielded, and it is
    positive afterwards only when the whole page was yielded. *)
Lemma for_pages_counter (rs : list Item) : forall m ys m',
  for_pages rs m = (ys, m') ->
  m' = m - Z.of_nat (length ys) /\ (0 < m' -> ys = rs).
Proof.
  induction rs as [|p rs IH]; intros m ys m' H; simpl in H.
  - injection H as <- <-. simpl. split; [lia | reflexivity].
  - destruct (Z.leb_spec (m - 1) 0).
    + injection H as <- <-. simpl length. split; lia.
    + destruct (for_pages rs (m - 1)) as [ys' m''] eqn:E.
      injection H as <- <-. destruct (IH _ _ _ E) as [Hm Hall].
      simpl length. split; [lia|].
      intros Hpos. now rewrite (Hall Hpos).
Qed.

Lemma for_pages_bound (rs : list Item) m ys m' :
  1 <= m -> for_pages rs m = (ys, m') -> Z.of_nat (length ys) <= m.
Proof.
  intros Hm H. rewrite for_pages_spec in H by exact Hm.
  injection H as <- _. rewrite length_firstn. lia.
Qed.

Lemma while_true_shape : forall fuel start m r,
  while_true findPages fuel start 25 m = Some r ->
  requests r = windows start (length (requests r))
  /\ (exists rest, fetched findPages (requests r) = (yielded r ++ rest)%list)
  /\ (1 <= m -> Z.of_nat (length (yielded r)) <= m).
Proof.
  induction fuel as [|fuel IH]; intros start m r H; [discriminate|].
  cbn [while_true] in H.
  destruct (for_pages (results (findPages start 25)) m) as [ys m'] eqn:E.
  destruct (for_pages_prefix _ _ _ _ E) as [rest Hrest].
  destruct (for_pages_counter _ _ _ _ E) as [Hm' Hall].
  assert (Hstop : forall r0, r0 = mkRun ys [(start, 25)] ->
            requests r0 = windows start (length (requests r0))
            /\ (exists rest, fetched findPages (requests r0) = (yielded r0 ++ rest)%list)
            /\ (1 <= m -> Z.of_nat (length (yielded r0)) <= m)).
  { intros r0 ->. cbn [requests yielded length]. rewrite windows_1.
    split; [reflexivity|]. split.
    - exists rest. unfold fetched. cbn [map concat fst snd].
      rewrite app_nil_r. exact Hrest.
    - intros Hm. eapply for_pages_bound; eassumption. }
  destruct (Z.leb_spec m' 0) as [Hle|Hgt].
  { injection H as <-. apply Hstop. reflexivity. }
  destruct (size (findPages start 25) <? limit (findPages start 25)).
  { injection H as <-. apply Hstop. reflexivity. }
  destruct (while_true findPages fuel (start + 25) 25 m') as [r'|] eqn:E';
    [|discriminate].
  injection H as <-. cbn [requests yielded].
  destruct (IH _ _ _ E') as (Hreq & (rest' & Hfetch) & Hcount).
  pose proof (Hall Hgt) as Hys. split; [|split].
  - cbn [length]. rewrite windows_S. f_equal. exact Hreq.
  - exists rest'. unfold fetched in *. cbn [map concat fst snd].
    rewrite Hfetch, <- Hys, app_assoc. reflexivity.
  - intros Hm. rewrite length_app, Nat2Z.inj_add. lia.
Qed.

(** X6: whatever the remote answers, every request of an iteration asks
    for 25 items, the first at the start offset and each further one 25
    beyond the one before. *)
Theorem iterate_requests_are_windows fuel start limit r :
  iterate findPages fuel start limit = Some r ->
  requests r = windows (start_of start) (length (requests r)).
Proof.
  unfold iterate. intros H. apply while_true_shape in H. apply H.
Qed.

(** X7: whatever the remote answers, the items yielded are the items of
    the pages fetched, in the order fetched, up to the point where the
    iteration stops: nothing is dropped in between, reordered or
    repeated. *)
Theorem iterate_yields_fetched_prefix fuel start limit r :
  iterate findPages fuel start limit = Some r ->
  exists rest, fetched findPages (requests r) = (yielded r ++ rest)%list.
Proof.
  unfold iterate. intros H. apply while_true_shape in H. apply H.
Qed.

(** X8: whatever the remote answers, an iteration with a limit of one or
    more never yields more items than the limit. *)
Theorem iterate_yields_at_most_limit fuel start limit r :
  1 <= limit ->
  iterate findPages fuel start (Some limit) = Some r ->
  Z.of_nat (length (yielded r)) <= limit.
Proof.
  unfold iterate. intros Hl H.
  destruct (Z.ltb_spec limit 0); [lia|].
  apply while_true_shape in H. apply H, Hl.
Qed.

(** X23: whatever the remote answers, an iteration with the limit 0 makes
    one request and yields the first item of the page it gets, if there
    is one: the counter is looked at only after an item is yielded. *)
Theorem iterate_limit_zero fuel start :
  iterate findPages (S fuel) start (Some 0)
  = Some (mkRun (firstn 1 (results (findPages (start_of start) 25)))
                [(start_of start, 25)]).
Proof.
  unfold iterate. change (0 <? 0) with false. cbv iota.
  fold (start_of start). cbn [while_true].
  destruct (results (findPages (start_of start) 25)) as [|p rest]; reflexivity.
Qed.

End AnyRemote.

Lemma iterate_requests_are_windows_witness :
  requests (mkRun (seq 5 30) [(5, 25); (30, 25)])
  = windows (start_of (Some 5)) (length (requests (mkRun (seq 5 30) [(5, 25); (30, 25)]))).
Proof.
  apply (iterate_requests_are_windows nat (paged_remote (seq 0 60)) 3 (Some 5) (Some 30)).
  reflexivity.
Defined.

Lemma iterate_yields_fetched_prefix_witness :
  exists rest,
    fetched (paged_remote (seq 0 60)) [(5, 25); (30, 25)]
    = (seq 5 30 ++ rest)%list.
Proof.
  apply (iterate_yields_fetched_prefix nat (paged_remote (seq 0 60)) 3 (Some 5) (Some 30)
           (mkRun (seq 5 30) [(5, 25); (30, 25)])).
  reflexivity.
Defined.

Lemma iterate_yields_at_most_limit_witness :
  Z.of_nat (length (seq 5 30)) <= 30.
Proof.
  apply (iterate_yields_at_most_limit nat (paged_remote (seq 0 60)) 3 (Some 5) 30
           (mkRun (seq 5 30) [(5, 25); (30, 25)])); [lia | reflexivity].
Defined.

Lemma while_true_paged_rounds {Item} (xs : list Item) : forall fuel start m r,
  0 <= start -> 1 <= m ->
  while_true (paged_remote xs) fuel start 25 m = Some r ->
  Z.of_nat (length (requests r))
  = rounds m (Z.of_nat (length (skipn (Z.to_nat start) xs))).
Proof.
  induction fuel as [|fuel IH]; intros start m r Hstart Hm H; [discriminate|].
  set (rem := skipn (Z.to_nat start) xs) in *.
  set (rs := firstn 25 rem).
  assert (Hrs : (length rs = Nat.min 25 (length rem))%nat)
    by (unfold rs; apply length_firstn).
  assert (Hres : paged_remote xs start 25 = mkResult rs (Z.of_nat (length rs)) 25)
    by reflexivity.
  cbn [while_true] in H. rewrite Hres in H. cbn [results size limit] in H.
  rewrite for_pages_spec in H by exact Hm.
  unfold rounds.
  destruct (Z.leb_spec (m - Z.of_nat (Nat.min (Z.to_nat m) (length rs))) 0) as [Hle|Hgt].
  { injection H as <-. cbn [requests length].
    destruct (Z.leb_spec m (Z.of_nat (length rem))); Z.div_mod_to_equations; lia. }
  destruct (Z.ltb_spec (Z.of_nat (length rs)) 25) as [Hshort|Hfull].
  { injection H as <-. cbn [requests length].
    destruct (Z.leb_spec m (Z.of_nat (length rem))); Z.div_mod_to_equations; lia. }
  destruct (while_true (paged_remote xs) fuel (start + 25) 25
              (m - Z.of_nat (Nat.min (Z.to_nat m) (length rs)))) as [r'|] eqn:E;
    [|discriminate].
  injection H as <-. cbn [requests length].
  apply IH in E; [|lia|lia].
  replace (Z.to_nat (start + 25)) with (25 + Z.to_nat start)%nat in E by lia.
  rewrite <- skipn_skipn in E. fold rem in E. rewrite length_skipn in E.
  unfold rounds in E. rewrite Nat2Z.inj_succ, E.
  destruct (Z.leb_spec m (Z.of_nat (length rem)));
    destruct (Z.leb_spec (m - Z.of_nat (Nat.min (Z.to_nat m) (length rs)))
                (Z.of_nat (length rem - 25))); Z.div_mod_to_equations; lia.
Qed.

(** X9: against a remote that pages the items it holds, an iteration with
    a limit of one or more ends, yields the first [min limit total] items
    from the start offset on in the order of the remote, and makes
    [rounds limit total] requests: the pages needed for [limit] items
    when the remote has that many, and otherwise every page up to and
    including the first one that is not full (one request for an empty
    result, and an extra request when the total is a multiple of 25). *)
Theorem iterate_limit_paged {Item} (xs : list Item) start limit :
  0 <= start -> 1 <= limit ->
  exists fuel r,
    iterate (paged_remote xs) fuel (Some start) (Some limit) = Some r
    /\ yielded r = firstn (Z.to_nat limit) (skipn (Z.to_nat start) xs)
    /\ Z.of_nat (length (yielded r))
       = Z.min limit (Z.of_nat (length (skipn (Z.to_nat start) xs)))
    /\ Z.of_nat (length (requests r))
       = rounds limit (Z.of_nat (length (skipn (Z.to_nat start) xs))).
Proof.
  intros Hstart Hlimit.
  destruct (iterate_limit_positive xs start limit Hstart Hlimit)
    as (fuel & r & Hr & Hy & Hn).
  exists fuel, r. repeat split; try assumption.
  unfold iterate in Hr. destruct (Z.ltb_spec limit 0); [lia|].
  eapply while_true_paged_rounds; eassumption.
Qed.

Lemma iterate_limit_paged_witness :
  exists fuel r,
    iterate (paged_remote (seq 0 55)) fuel (Some 5) (Some 60) = Some r
    /\ yielded r = firstn (Z.to_nat 60) (skipn (Z.to_nat 5) (seq 0 55))
    /\ Z.of_nat (length (yielded r))
       = Z.min 60 (Z.of_nat (length (skipn (Z.to_nat 5) (seq 0 55))))
    /\ Z.of_nat (length (requests r))
       = rounds 60 (Z.of_nat (length (skipn (Z.to_nat 5) (seq 0 55)))).
Proof.
  apply (iterate_limit_paged (seq 0 55) 5 60); lia.
Defined.

(** X10: without a limit, against a remote that pages at most 10000000000
    items from the start offset on, the iteration ends, yields every one
    of them in order, and makes [rounds 10000000000 total] requests. *)
Theorem iterate_unlimited_yields_all {Item} (xs : list Item) start :
  0 <= start ->
  Z.of_nat (length (skipn (Z.to_nat start) xs)) <= 10000000000 ->
  exists fuel r,
    iterate (paged_remote xs) fuel (Some start) None = Some r
    /\ yielded r = skipn (Z.to_nat start) xs
    /\ Z.of_nat (length (requests r))
       = rounds 10000000000 (Z.of_nat (length (skipn (Z.to_nat start) xs))).
Proof.
  intros Hstart Hlen.
  destruct (while_true_paged xs (length (skipn (Z.to_nat start) xs)) start 10000000000)
    as (r & Hr & Hy); [lia | lia | lia |].
  exists (S (length (skipn (Z.to_nat start) xs))), r.
  split; [exact Hr|]. split.
  - rewrite Hy. apply firstn_all2. lia.
  - eapply while_true_paged_rounds; [exact Hstart | | exact Hr]. lia.
Qed.

Lemma iterate_unlimited_yields_all_witness :
  exists fuel r,
    iterate (paged_remote (seq 0 60)) fuel (Some 5) None = Some r
    /\ yielded r = skipn (Z.to_nat 5) (seq 0 60)
    /\ Z.of_nat (length (requests r))
       = rounds 10000000000 (Z.of_nat (length (skipn (Z.to_nat 5) (seq 0 60)))).
Proof.
  apply (iterate_unlimited_yields_all (seq 0 60) 5); [lia|].
  rewrite length_skipn, length_seq. lia.
Defined.

End IteratorMore.

(* ===================================================================== *)
(** * More on the property filter                                         *)
(* ===================================================================== *)

Module FilterMore.
Import Re ReFacts Filter FilterFacts Select.
Local Arguments Ascii.eqb : simpl never.

(** A lazy run over text that is all in the class, where the continuation
    fails at every proper prefix, hands the whole text over. *)
Lemma lazy_run {R} p s1 : forall s2 (k : string -> string -> option R) x,
  every p s1 = true ->
  (forall g c r, s1 = g ++ String c r -> k g (String c r ++ s2) = None) ->
  k s1 s2 = Some x ->
  lazy p (s1 ++ s2) k = Some x.
Proof.
  induction s1 as [|c s1 IH]; intros s2 k x Hall Hfail Hk.
  - simpl. destruct s2; simpl; rewrite Hk; reflexivity.
  - simpl in Hall. apply andb_true_iff in Hall. destruct Hall as [Hc Hs].
    change (String c s1 ++ s2) with (String c (s1 ++ s2)).
    cbn [lazy]. rewrite (Hfail "" c s1 eq_refl : k "" (String c (s1 ++ s2)) = None).
    rewrite Hc. apply IH; [exact Hs | | exact Hk].
    intros g c' r ->. apply (Hfail (String c g) c' r). reflexivity.
Qed.

(** A lazy run whose continuation fails at every split finds nothing. *)
Lemma lazy_none {R} p s : forall (k : string -> string -> option R),
  (forall g r, s = g ++ r -> k g r = None) ->
  lazy p s k = None.
Proof.
  induction s as [|c s IH]; intros k Hfail.
  - simpl. now rewrite (Hfail "" "" eq_refl).
  - cbn [lazy]. rewrite (Hfail "" (String c s) eq_refl).
    destruct (p c); [|reflexivity].
    apply IH. intros g r ->. apply (Hfail (String c g) r). reflexivity.
Qed.

Lemma every_split p g c r :
  every p (g ++ String c r) = true -> p c = true.
Proof.
  induction g as [|a g IH]; simpl; intros H;
    apply andb_true_iff in H; destruct H as [H1 H2]; auto.
Qed.

Lemma has_op_tail g r : has_op (g ++ r) = false -> has_op r = false.
Proof.
  induction g as [|a g IH]; simpl; intros H; [exact H|].
  apply orb_false_iff in H. apply IH, H.
Qed.

(** A well-formed filter string is parsed into its name, the first
    character of its operator and its value. *)
Lemma PAGE_PROP_FILTER_groups o nv :
  bang_or_eq o = true -> well_formed nv = true ->
  search PAGE_PROP_FILTER (filter_string o nv)
  = Some [fst nv; String o ""; snd nv].
Proof.
  intros Ho Hwf. unfold well_formed in Hwf.
  apply andb_true_iff in Hwf. destruct Hwf as [Hn Hv].
  unfold PAGE_PROP_FILTER, filter_string. rewrite search_bol.
  cbn [match_here rep Nat.eqb].
  apply lazy_run.
  - clear -Hn. induction (fst nv) as [|c s IH]; simpl in *; [reflexivity|].
    apply andb_true_iff in Hn. destruct Hn as [Hc Hs].
    unfold Text.name_char in Hc.
    apply andb_true_iff in Hc. destruct Hc as [Hc _].
    now rewrite Hc, IH.
  - intros g c r E. rewrite E in Hn. apply every_split in Hn.
    unfold Text.name_char in Hn.
    apply andb_true_iff in Hn. destruct Hn as [_ Hc].
    apply negb_true_iff in Hc. simpl. now rewrite Hc.
  - rewrite Ho. cbn [strip]. rewrite Ascii.eqb_refl.
    rewrite (greedy_run dot (snd nv) _ [snd nv] Hv); reflexivity.
Qed.

(** A string that nowhere holds an operator is not matched. *)
Lemma PAGE_PROP_FILTER_none s :
  has_op s = false -> search PAGE_PROP_FILTER s = None.
Proof.
  intros H. unfold PAGE_PROP_FILTER. rewrite search_bol.
  cbn [match_here rep Nat.eqb].
  apply lazy_none. intros g r ->. apply has_op_tail in H.
  destruct r as [|c r]; [reflexivity|].
  simpl in H. apply orb_false_iff in H. destruct H as [H _].
  destruct (bang_or_eq c); [|reflexivity]. simpl in H.
  destruct r as [|d r]; simpl; [reflexivity|].
  destruct (Ascii.eqb_spec "="%char d) as [<-|]; [|reflexivity].
  rewrite Ascii.eqb_refl in H. discriminate.
Qed.

Section AnyPages.
Variable Page : Type.
Variable getProp : Page -> string -> propval.

Lemma filter_pages_no_specs cmp (pages : list Page) :
  filter_pages getProp [] cmp pages = Returns pages.
Proof.
  induction pages as [|p ps IH]; [reflexivity|].
  cbn [filter_pages]. rewrite page_prop_filterer_no_specs, IH. reflexivity.
Qed.

Lemma page_prop_filterer_bound c fs page :
  page_prop_filterer getProp fs (Some c) page
  = Returns (holds_under getProp c fs page).
Proof.
  unfold page_prop_filterer, holds_under.
  destruct fs as [|f fs]; [reflexivity|].
  change ((length (f :: fs) =? 0)%nat) with false. cbv iota.
  rewrite for_filters_under_cmp. reflexivity.
Qed.

Lemma filter_pages_bound c fs (pages : list Page) :
  filter_pages getProp fs (Some c) pages
  = Returns (filter (holds_under getProp c fs) pages).
Proof.
  induction pages as [|p ps IH]; [reflexivity|].
  cbn [filter_pages filter]. rewrite page_prop_filterer_bound, IH.
  reflexivity.
Qed.

Lemma for_items_strings o nvs : forall acc cmp,
  bang_or_eq o = true -> forallb well_formed nvs = true ->
  for_items (map (fun nv => Str (filter_string o nv)) nvs) acc cmp
  = ((acc ++ map (parsed o) nvs)%list,
     match nvs with [] => cmp | _ => Some (String o "") end).
Proof.
  induction nvs as [|nv nvs IH]; intros acc cmp Ho Hwf.
  - simpl. now rewrite app_nil_r.
  - simpl in Hwf. apply andb_true_iff in Hwf. destruct Hwf as [Hnv Hwf].
    cbn [map for_items]. rewrite (PAGE_PROP_FILTER_groups o nv Ho Hnv).
    rewrite IH by assumption. rewrite <- app_assoc. cbn [app].
    unfold parsed at 2. destruct nvs; reflexivity.
Qed.

Lemma for_items_ignored ss : forall acc cmp,
  forallb (fun s => negb (has_op s)) ss = true ->
  for_items (map Str ss) acc cmp = (acc, cmp).
Proof.
  induction ss as [|s ss IH]; intros acc cmp H; [reflexivity|].
  simpl in H. apply andb_true_iff in H. destruct H as [Hs H].
  apply negb_true_iff in Hs.
  cbn [map for_items]. rewrite (PAGE_PROP_FILTER_none s Hs). now apply IH.
Qed.

Lemma for_items_dicts fs : forall acc cmp,
  for_items (map Dict fs) acc cmp = ((acc ++ fs)%list, cmp).
Proof.
  induction fs as [|f fs IH]; intros acc cmp; simpl.
  - now rewrite app_nil_r.
  - rewrite IH, <- app_assoc. reflexivity.
Qed.

(** X11: what a call with a filter list returns, in terms of the specs
    and the operator that the loop over the list leaves behind.  With an
    operator bound, the result is the pages, in their order, on which
    every spec holds when read under that one operator, the one parsed
    last; with no spec at all every page is returned; with specs and no
    operator bound the first page raises NameError. *)
Theorem getPagesWithProperties_by_last_operator (pages : list Page) items :
  getPagesWithProperties getProp pages (Some items)
  = let (fs, cmp) := for_items items [] None in
    match cmp with
    | Some c => Returns (filter (holds_under getProp c fs) pages)
    | None =>
        match fs, pages with
        | [], _ => Returns pages
        | _ :: _, [] => Returns []
        | _ :: _, _ :: _ => NameError
        end
    end.
Proof.
  unfold getPagesWithProperties.
  destruct (for_items items [] None) as [fs [c|]].
  - apply filter_pages_bound.
  - destruct fs as [|f fs]; [apply filter_pages_no_specs|].
    destruct pages; reflexivity.
Qed.

(** X12: filter strings that are well formed and all carry the same
    operator select the pages, in their order, on which every spec holds
    under its own operator; an empty list selects every page. *)
Theorem getPagesWithProperties_same_operator (pages : list Page) o nvs :
  bang_or_eq o = true -> forallb well_formed nvs = true ->
  getPagesWithProperties getProp pages
    (Some (map (fun nv => Str (filter_string o nv)) nvs))
  = Returns (filter (holds_all getProp (map (parsed o) nvs)) pages).
Proof.
  intros Ho Hwf. unfold getPagesWithProperties.
  rewrite for_items_strings by assumption. cbn [app].
  destruct nvs as [|nv nvs].
  - rewrite filter_pages_no_specs. f_equal.
    induction pages as [|p ps IH]; [reflexivity|].
    simpl. f_equal. exact IH.
  - rewrite filter_pages_bound. f_equal. apply filter_ext. intros page.
    unfold holds_under, holds_all. clear Hwf.
    induction (nv :: nvs) as [|nv' l IHl]; [reflexivity|].
    cbn [map forallb]. rewrite IHl. reflexivity.
Qed.

(** X13: a filter string that nowhere holds [==] or [!=] is dropped
    without an error: a call whose filter strings are all of this kind
    returns every page, as a call without a filter does. *)
Theorem getPagesWithProperties_ignores_malformed (pages : list Page) ss :
  forallb (fun s => negb (has_op s)) ss = true ->
  getPagesWithProperties getProp pages (Some (map Str ss)) = Returns pages
  /\ getPagesWithProperties getProp pages None = Returns pages.
Proof.
  intros H. unfold getPagesWithProperties.
  rewrite for_items_ignored by exact H.
  split; apply filter_pages_no_specs.
Qed.

(** X14: a filter list made of dicts only raises NameError as soon as
    there is a page to test: the operator that the filterer reads is
    bound by the parsing of a filter string, and nothing else. *)
Theorem getPagesWithProperties_dicts_only page (pages : list Page) f fs :
  getPagesWithProperties getProp (page :: pages) (Some (map Dict (f :: fs)))
  = NameError.
Proof.
  unfold getPagesWithProperties. rewrite for_items_dicts. reflexivity.
Qed.

End AnyPages.

Lemma getPagesWithProperties_same_operator_witness :
  getPagesWithProperties getPageProperty [labelled_page; (fun _ => Absent)]
    (Some (map (fun nv => Str (filter_string "=" nv))
               [("labels", "public"); ("owner", "ann")]))
  = Returns (filter (holds_all getPageProperty
                       (map (parsed "=") [("labels", "public"); ("owner", "ann")]))
                    [labelled_page; (fun _ => Absent)]).
Proof.
  apply (getPagesWithProperties_same_operator props getPageProperty
           [labelled_page; (fun _ => Absent)] "="
           [("labels", "public"); ("owner", "ann")]); reflexivity.
Defined.

Lemma getPagesWithProperties_ignores_malformed_witness :
  getPagesWithProperties getPageProperty [labelled_page]
    (Some (map Str ["labels"; "owner=ann"])) = Returns [labelled_page]
  /\ getPagesWithProperties getPageProperty [labelled_page] None
     = Returns [labelled_page].
Proof.
  apply (getPagesWithProperties_ignores_malformed props getPageProperty
           [labelled_page] ["labels"; "owner=ann"]).
  reflexivity.
Defined.

End FilterMore.

(* ===================================================================== *)
(** * More on the page tree copy                                          *)
(* ===================================================================== *)

Module SyncMore.
Import Sync SyncFacts.
Local Open Scope list_scope.

(** ** Matching of the children by title *)








(** ** Requests of a copy *)

Section Remote.
Variable World : Type.
Variable sr : method -> string -> params -> World -> response * World.
Variable deletePage : string -> M World value.

Lemma getPage_found page_id expand st status text body w :
  sr GET (content_url page_id) (Expand expand) (remote st)
  = (Response status text body, w) ->
  (status < 400)%Z ->
  getPage World sr page_id expand st
  = (Ok (Obj (if String.eqb text "" then JEmpty else body)),
     mkState w (log st ++ [mkCall GET (content_url page_id) (Expand expand)])).
Proof.
  intros E Hs. unfold getPage, bind, get, request. rewrite E.
  destruct (Z.leb_spec 400 status); [lia|].
  destruct (String.eqb text ""); reflexivity.
Qed.

(** X16: a call that is not recursive, or that has no [delete], sends
    fetches and updates and nothing else, at every depth and whatever
    [deletePage] would do: nothing is created and nothing is deleted.  In
    particular [delete] has no effect on a call that is not recursive. *)
Theorem copyPage_fetches_and_updates_only
        fuel source target recursive parent space delete st r st' :
  recursive = false \/ delete = false ->
  copyPage World sr deletePage fuel source target recursive parent space delete st
    = (r, st') ->
  exists l, sent st st' l /\ Forall get_or_put l.
Proof.
  intros H E.
  assert (E' : copyPage World sr deletePage fuel source target recursive parent
                        space false st = (r, st')).
  { destruct H as [->| ->]; [|exact E]. destruct fuel; exact E. }
  destruct (copyPage_no_prune World sr deletePage fuel source target recursive
              parent space st r st' E') as [_ Hl].
  exact Hl.
Qed.

(** X17: no page is ever created: whatever the arguments and the answers
    of the service, [copyPage] sends no POST at any depth, as long as
    [deletePage] sends none. *)
Theorem copyPage_sends_no_post
        fuel source target recursive parent space delete st r st' :
  (forall id, run World (deletePage id) (fun _ => True)
                  (fun c => call_method c <> POST)) ->
  copyPage World sr deletePage fuel source target recursive parent space delete st
    = (r, st') ->
  exists l, sent st st' l /\ Forall (fun c => call_method c <> POST) l.
Proof.
  intros Hdel E.
  destruct (copyPage_never_creates World sr deletePage fuel Hdel source target
              recursive parent space delete st r st' E) as [_ Hl].
  exact Hl.
Qed.

(** X18: when the service answers the fetch of the source with a status
    of 400 or more, the call ends with the [ConfluenceError] that carries
    the text of the answer, and that fetch is its only request. *)
Theorem copyPage_missing_source
        fuel source target recursive parent space delete st status text body w :
  sr GET (content_url source) (Expand "body.storage,space") (remote st)
    = (Response status text body, w) ->
  (400 <= status)%Z ->
  copyPage World sr deletePage (S fuel) source target recursive parent space delete st
  = (Raise (ConfluenceError text),
     mkState w (log st
                ++ [mkCall GET (content_url source) (Expand "body.storage,space")])).
Proof.
  intros E Hs. cbn [copyPage]. unfold copyPage_target.
  unfold bind at 1. unfold bind at 1.
  rewrite (getPage_not_found _ _ _ _ _ _ _ _ _ E Hs). reflexivity.
Qed.

(** X19: when the source is fetched and the service answers the fetch of
    the target with a status of 400 or more, the call ends with the
    [ConfluenceError] of that answer after exactly the two fetches:
    nothing is created, updated or deleted. *)
Theorem copyPage_missing_target_two_fetches
        fuel source target recursive parent space delete st
        s1 t1 b1 w1 s2 t2 b2 w2 :
  sr GET (content_url source) (Expand "body.storage,space") (remote st)
    = (Response s1 t1 b1, w1) ->
  (s1 < 400)%Z ->
  sr GET (content_url target) (Expand "version,space") w1
    = (Response s2 t2 b2, w2) ->
  (400 <= s2)%Z ->
  copyPage World sr deletePage (S fuel) source target recursive parent space delete st
  = (Raise (ConfluenceError t2),
     mkState w2 (log st
                 ++ [mkCall GET (content_url source) (Expand "body.storage,space");
                     mkCall GET (content_url target) (Expand "version,space")])).
Proof.
  intros E1 H1 E2 H2.
  rewrite (copyPage_missing_target World sr deletePage fuel source target recursive
             parent space delete st _ _ s2 t2 b2 w2
             (getPage_found _ _ _ _ _ _ _ E1 H1) E2 H2).
  cbn [log]. rewrite <- app_assoc. reflexivity.
Qed.

(** X20: a call that is not recursive, on a source and a target that the
    service holds, sends three requests: the two fetches and one update.
    The update goes to the id of the target and carries the title of the
    target, the version number read from the target as it is, and the
    storage body of the source; [parent], [space] and [delete] have no
    part in it, and the call returns [None]. *)
Theorem copyPage_update_request
        fuel source target parent space delete st
        s1 t1 sp w1 s2 t2 tp w2 body n s3 t3 j3 w3 :
  sr GET (content_url source) (Expand "body.storage,space") (remote st)
    = (Response s1 t1 (JPage sp), w1) ->
  (s1 < 400)%Z -> String.eqb t1 "" = false ->
  sr GET (content_url target) (Expand "version,space") w1
    = (Response s2 t2 (JPage tp), w2) ->
  (s2 < 400)%Z -> String.eqb t2 "" = false ->
  page_storage sp = Some body ->
  page_version tp = Some n ->
  sr PUT ("/rest/api/content/" ++ page_id tp)
     (UpdateData n (page_title tp) body) w2
    = (Response s3 t3 j3, w3) ->
  (s3 < 400)%Z ->
  copyPage World sr deletePage (S fuel) source target false parent space delete st
  = (Ok PyNone,
     mkState w3 (log st
                 ++ [mkCall GET (content_url source) (Expand "body.storage,space");
                     mkCall GET (content_url target) (Expand "version,space");
                     mkCall PUT ("/rest/api/content/" ++ page_id tp)
                            (UpdateData n (page_title tp) body)])).
Proof.
  intros E1 H1 N1 E2 H2 N2 Hbody Hn E3 H3.
  cbn [copyPage]. unfold copyPage_target.
  unfold bind at 1. unfold bind at 1.
  rewrite (getPage_found _ _ _ _ _ _ _ E1 H1), N1.
  unfold bind at 1.
  rewrite (getPage_found target "version,space" (mkState w1 _) _ _ _ _ E2 H2), N2.
  unfold item_id, item_version, item_title, item_storage, item_page, updatePage,
    put, request, bind, ret.
  rewrite Hn. cbv beta iota. rewrite Hbody. cbv beta iota.
  cbn [remote log]. rewrite E3.
  destruct (Z.leb_spec 400 s3); [lia|].
  rewrite <- !app_assoc. cbn [app].
  destruct (String.eqb t3 ""); reflexivity.
Qed.

(** ** The copies of the children *)




End Remote.

Lemma deletePage_request_no_post id :
  run Wiki.World (Wiki.deletePage_request id) (fun _ => True)
      (fun c => call_method c <> POST).
Proof.
  unfold Wiki.deletePage_request.
  eapply run_bind with (Q1 := fun _ => True).
  - apply run_request. discriminate.
  - intros data _. apply run_ret. exact I.
Qed.

Lemma copyPage_fetches_and_updates_only_witness :
  let run := copyPage Wiki.World Wiki.serve Wiki.deletePage_request 3 "A" "T" false
                      None None true (Wiki.start Wiki.tree_orphans) in
  exists l, sent (Wiki.start Wiki.tree_orphans) (snd run) l /\ Forall get_or_put l.
Proof.
  intros run.
  apply (copyPage_fetches_and_updates_only Wiki.World Wiki.serve Wiki.deletePage_request
           3 "A" "T" false None None true (Wiki.start Wiki.tree_orphans)
           (fst run) (snd run)).
  - left. reflexivity.
  - apply surjective_pairing.
Defined.

Lemma copyPage_sends_no_post_witness :
  let run := copyPage Wiki.World Wiki.serve Wiki.deletePage_request 3 "A" "T" true
                      None None true (Wiki.start Wiki.tree_orphans) in
  exists l, sent (Wiki.start Wiki.tree_orphans) (snd run) l
            /\ Forall (fun c => call_method c <> POST) l.
Proof.
  intros run.
  apply (copyPage_sends_no_post Wiki.World Wiki.serve Wiki.deletePage_request
           3 "A" "T" true None None true (Wiki.start Wiki.tree_orphans)
           (fst run) (snd run) deletePage_request_no_post).
  apply surjective_pairing.
Defined.

Lemma copyPage_missing_source_witness :
  copyPage Wiki.World Wiki.serve Wiki.deletePage_missing 3 "NoA" "T" true None None
           false (Wiki.start Wiki.tree_matching)
  = (Raise (ConfluenceError "not found"),
     mkState Wiki.tree_matching
       ([] ++ [mkCall GET (content_url "NoA") (Expand "body.storage,space")])).
Proof.
  apply (copyPage_missing_source Wiki.World Wiki.serve Wiki.deletePage_missing
           2 "NoA" "T" true None None false (Wiki.start Wiki.tree_matching)
           404%Z "not found" JEmpty Wiki.tree_matching).
  - reflexivity.
  - lia.
Defined.

Lemma copyPage_missing_target_two_fetches_witness :
  copyPage Wiki.World Wiki.serve Wiki.deletePage_missing 3 "A" "NewT" true None None
           false (Wiki.start Wiki.tree_matching)
  = (Raise (ConfluenceError "not found"),
     mkState Wiki.tree_matching
       ([] ++ [mkCall GET (content_url "A") (Expand "body.storage,space");
               mkCall GET (content_url "NewT") (Expand "version,space")])).
Proof.
  apply (copyPage_missing_target_two_fetches
           Wiki.World Wiki.serve Wiki.deletePage_missing
           2 "A" "NewT" true None None false (Wiki.start Wiki.tree_matching)
           200%Z "content"
           (JPage (mkPage "A" "A" (Some 3%Z) (Some "body of A"%string)))
           Wiki.tree_matching
           404%Z "not found" JEmpty Wiki.tree_matching).
  - reflexivity.
  - lia.
  - reflexivity.
  - lia.
Defined.

Lemma copyPage_update_request_witness :
  copyPage Wiki.World Wiki.serve Wiki.deletePage_missing 1 "A" "T" false
           (Some "P") (Some "DOC") true (Wiki.start Wiki.tree_matching)
  = (Ok PyNone,
     mkState
       [ Wiki.mkStored "A" "A" None "body of A" 3;
         Wiki.mkStored "B" "B" (Some "A") "body of B" 2;
         Wiki.mkStored "T" "T" None "body of A" 8;
         Wiki.mkStored "TB" "B" (Some "T") "old B" 4 ]
       ([] ++ [mkCall GET (content_url "A") (Expand "body.storage,space");
               mkCall GET (content_url "T") (Expand "version,space");
               mkCall PUT ("/rest/api/content/" ++ "T")
                      (UpdateData 7 "T" "body of A")])).
Proof.
  apply (copyPage_update_request Wiki.World Wiki.serve Wiki.deletePage_missing
           0 "A" "T" (Some "P") (Some "DOC") true (Wiki.start Wiki.tree_matching)
           200%Z "content" (mkPage "A" "A" (Some 3%Z) (Some "body of A"%string))
           Wiki.tree_matching
           200%Z "content" (mkPage "T" "T" (Some 7%Z) (Some "old T"%string))
           Wiki.tree_matching
           "body of A" 7%Z
           200%Z "updated"
           (JPage (mkPage "T" "T" (Some 8%Z) (Some "body of A"%string)))
           [ Wiki.mkStored "A" "A" None "body of A" 3;
             Wiki.mkStored "B" "B" (Some "A") "body of B" 2;
             Wiki.mkStored "T" "T" None "body of A" 8;
             Wiki.mkStored "TB" "B" (Some "T") "old B" 4 ]).
  - reflexivity.
  - lia.
  - reflexivity.
  - reflexivity.
  - lia.
  - reflexivity.
  - reflexivity.
  - reflexivity.
  - reflexivity.
  - lia.
Defined.


End SyncMore.

(* ===================================================================== *)
(** * Listing the pages of a query                                        *)
(* ===================================================================== *)

Module PagesFacts.
Import Re Resolver Iterator IteratorFacts Filter Select Pages.
Local Open Scope Z_scope.

Section Service.
Variable Item : Type.
Variable Page : Type.
Variable wrap : list string -> Item -> Page.
Variable getProp : Page -> string -> propval.
Variable store : string -> string -> list Item.

(** Listing without a filter, against a service that pages what it
    holds: every item of the query as given, in order. *)
Lemma getPages_all_paged cql expand :
  Z.of_nat (length (store cql (join expand))) <= 10000000000 ->
  exists fuel,
    getPages_all (paged_search store) wrap fuel cql expand
    = Some (map (wrap expand) (store cql (join expand))).
Proof.
  intros Hlen. set (xs := store cql (join expand)) in *.
  destruct (while_true_paged xs (length xs) 0 10000000000)
    as (r & Hr & Hy); [lia | lia | simpl; lia |].
  exists (S (length xs)). unfold getPages_all, iterate, paged_search.
  fold xs. change (-1 <? 0) with true. cbv iota.
  rewrite Hr, Hy. change (Z.to_nat 0) with 0%nat. cbn [skipn].
  rewrite firstn_all2 by lia. reflexivity.
Qed.

(** X21: a call of [getPages] without a filter does not resolve the
    reference: against a service that pages what it holds, it returns the
    pages of the query text as it is given, all of them and in order,
    fetched with the [expand] given. *)
Theorem getPages_unfiltered_query_verbatim ref expand :
  Z.of_nat (length (store ref (join expand))) <= 10000000000 ->
  exists fuel,
    getPages (paged_search store) wrap getProp fuel ref expand None
    = Some (Returns (map (wrap expand) (store ref (join expand)))).
Proof.
  intros Hlen. destruct (getPages_all_paged ref expand Hlen) as [fuel E].
  exists fuel. unfold getPages. rewrite E. reflexivity.
Qed.

(** X22: a call of [getPages] with well-formed filter strings of one
    operator resolves the reference, lists the pages of the resolved
    query with [body.view] added to [expand], and returns, in the order
    of the service, the pages on which every spec holds. *)
Theorem getPages_filtered_end_to_end ref expand o nvs :
  bang_or_eq o = true -> forallb well_formed nvs = true ->
  Z.of_nat (length (store (resolveCQL ref) (join (expand ++ ["body.view"]))))
    <= 10000000000 ->
  exists fuel,
    getPages (paged_search store) wrap getProp fuel ref expand
      (Some (map (fun nv => Str (filter_string o nv)) nvs))
    = Some (Returns
        (filter (holds_all getProp (map (parsed o) nvs))
           (map (wrap (expand ++ ["body.view"]))
                (store (resolveCQL ref) (join (expand ++ ["body.view"])))))).
Proof.
  intros Ho Hwf Hlen.
  destruct (getPages_all_paged (resolveCQL ref) (expand ++ ["body.view"])%list Hlen)
    as [fuel E].
  exists fuel. unfold getPages, Pages.getPagesWithProperties. rewrite E.
  f_equal. unfold Filter.getPagesWithProperties.
  rewrite FilterMore.for_items_strings by assumption. cbn [app].
  destruct nvs as [|nv nvs].
  - rewrite FilterMore.filter_pages_no_specs. f_equal. clear E.
    induction (map _ _) as [|p ps IH]; [reflexivity|].
    simpl. f_equal. exact IH.
  - rewrite FilterMore.filter_pages_bound. f_equal. apply filter_ext. intros page.
    unfold holds_under, holds_all. clear.
    induction (nv :: nvs) as [|nv' l IHl]; [reflexivity|].
    cbn [map forallb]. rewrite IHl. reflexivity.
Qed.

End Service.

Lemma getPages_unfiltered_query_verbatim_witness :
  exists fuel,
    getPages (paged_search (fun cql _ => if String.eqb cql "123" then [1; 2; 3] else []))
             (fun _ (i : Z) => i) (fun _ _ => Absent) fuel "123" [] None
    = Some (Returns (map (fun i : Z => i)
              ((fun cql (_ : string) => if String.eqb cql "123" then [1; 2; 3] else [])
                 "123"%string (join [])))).
Proof.
  apply (getPages_unfiltered_query_verbatim Z Z (fun _ i => i) (fun _ _ => Absent)
           (fun cql _ => if String.eqb cql "123" then [1; 2; 3] else []) "123" []).
  simpl. lia.
Defined.

Lemma getPages_filtered_end_to_end_witness :
  exists fuel,
    getPages (paged_search
                (fun cql _ => if String.eqb cql "ID  = 123" then [labelled_page] else []))
             (fun _ (p : props) => p) getPageProperty fuel "123" []
             (Some (map (fun nv => Str (filter_string "=" nv)) [("owner", "ann")]))
    = Some (Returns
        (filter (holds_all getPageProperty (map (parsed "=") [("owner", "ann")]))
           (map (fun p : props => p)
              ((fun cql (_ : string) =>
                  if String.eqb cql "ID  = 123" then [labelled_page] else [])
                 (resolveCQL "123") (join ([] ++ ["body.view"])))))).
Proof.
  apply (getPages_filtered_end_to_end props props (fun _ p => p) getPageProperty
           (fun cql _ => if String.eqb cql "ID  = 123" then [labelled_page] else [])
           "123" [] "=" [("owner", "ann")]).
  - reflexivity.
  - reflexivity.
  - simpl. lia.
Defined.

End PagesFacts.

(* ===================================================================== *)
(** * References of no form                                               *)
(* ===================================================================== *)

Module ResolverForms.
Import Re ReFacts Resolver ResolverFacts Text Forms.
Local Arguments Ascii.eqb : simpl never.

Lemma chomp_app a b : b <> "" -> chomp (a ++ b) = a ++ chomp b.
Proof.
  intros Hb. induction a as [|c a IH]; [reflexivity|].
  change (String c a ++ b) with (String c (a ++ b)). cbn [chomp].
  destruct (a ++ b) eqn:E.
  - destruct a; [simpl in E; congruence | discriminate].
  - rewrite IH. reflexivity.
Qed.

Lemma chomp_nl s : chomp (s ++ nl) = s.
Proof.
  induction s as [|c s IH].
  - reflexivity.
  - change (String c s ++ nl) with (String c (s ++ nl)). cbn [chomp].
    destruct (s ++ nl) eqn:E.
    + destruct s; discriminate.
    + rewrite IH. reflexivity.
Qed.

(** A text that does not end with a newline is left as it is. *)
Lemma chomp_dot s : every dot s = true -> chomp s = s.
Proof.
  induction s as [|c s IH]; [reflexivity|].
  simpl. intros H. apply andb_true_iff in H. destruct H as [Hc Hs].
  destruct s as [|d s].
  - unfold dot in Hc. apply negb_true_iff in Hc. now rewrite Hc.
  - now rewrite (IH Hs).
Qed.

Lemma chomp_tail s tail :
  every dot s = true -> tail = "" \/ tail = nl -> chomp (s ++ tail) = s.
Proof.
  intros Hs [->| ->].
  - rewrite append_empty_r. apply chomp_dot, Hs.
  - apply chomp_nl.
Qed.

Lemma after_upper_run key rest :
  every upper key = true -> after_upper (key ++ rest) = after_upper rest.
Proof.
  induction key as [|c key IH]; [reflexivity|].
  simpl. intros H. apply andb_true_iff in H. destruct H as [Hc Hk].
  now rewrite Hc, IH.
Qed.

(** What the first pattern finds starts with uppercase letters and a
    colon. *)
Lemma SPACE_PAGE_REF_form s g :
  search SPACE_PAGE_REF s = Some g -> key_and_title_form (chomp s) = true.
Proof.
  unfold SPACE_PAGE_REF. rewrite search_bol.
  cbn [match_here rep Nat.eqb].
  intros H. apply ResolverMore.greedy_inv in H.
  destruct H as (key & r & -> & Hkey & H).
  destruct (strip ":" r) as [r'|] eqn:Es; [|discriminate].
  apply ResolverMore.strip_inv in Es. subst r.
  assert (E : chomp (key ++ ":" ++ r') = key ++ ":" ++ chomp r').
  { rewrite chomp_app by discriminate. f_equal.
    destruct r' as [|c r']; [reflexivity|].
    apply (chomp_app ":" (String c r')). discriminate. }
  rewrite E. unfold key_and_title_form.
  rewrite (after_upper_run key _ Hkey). reflexivity.
Qed.

Lemma digits_dot s : every digit s = true -> every dot s = true.
Proof.
  apply ResolverMore.every_impl. intros c Hc. unfold dot.
  now rewrite (ResolverMore.digit_not_newline c Hc).
Qed.

(** What the third pattern finds is made of digits, a final newline
    apart. *)
Lemma PAGE_ID_form s g :
  search PAGE_ID s = Some g -> digits_form (chomp s) = true.
Proof.
  unfold PAGE_ID. rewrite search_bol.
  cbn [match_here rep Nat.eqb].
  destruct s as [|c s]; [discriminate|].
  destruct (digit c) eqn:Hc; [|discriminate].
  intros H. apply ResolverMore.greedy_inv in H.
  destruct H as (d & r & -> & Hd & H).
  destruct (at_eol r) eqn:Er; [|discriminate].
  apply ResolverMore.at_eol_inv in Er.
  assert (Hds : every digit (String c d) = true) by (simpl; now rewrite Hc, Hd).
  change (String c (d ++ r)) with (String c d ++ r).
  rewrite (chomp_tail _ _ (digits_dot _ Hds) Er).
  unfold digits_form. now rewrite Hds.
Qed.

Lemma content_uri_form_suffix pre ds :
  digits_form ds = true -> content_uri_form (pre ++ "api/content/" ++ ds) = true.
Proof.
  intros Hds. induction pre as [|c pre IH].
  - change ("" ++ "api/content/" ++ ds) with ("api/content/" ++ ds).
    change ("api/content/" ++ ds) with (String "a" ("pi/content/" ++ ds)) at 1.
    cbn [content_uri_form].
    change (String "a" ("pi/content/" ++ ds)) with ("api/content/" ++ ds).
    rewrite ResolverMore.strip_app, Hds. reflexivity.
  - change (String c pre ++ "api/content/" ++ ds)
      with (String c (pre ++ "api/content/" ++ ds)).
    cbn [content_uri_form]. rewrite IH. apply orb_true_r.
Qed.

(** What the fourth pattern finds ends with the content path and digits,
    a final newline apart. *)
Lemma PAGE_URI_form s g :
  search PAGE_URI s = Some g -> content_uri_form (chomp s) = true.
Proof.
  intros H. apply ResolverMore.search_from_inv in H.
  destruct H as (pre & s2 & pos2 & -> & H).
  apply ResolverMore.PAGE_URI_here in H.
  destruct H as (c & d & tail & -> & Hd & Htail & _).
  rewrite chomp_app by discriminate.
  rewrite <- (ResolverMore.append_assoc "api/content/" (String c d) tail).
  rewrite chomp_tail; [| |exact Htail].
  - apply content_uri_form_suffix. unfold digits_form. now rewrite Hd.
  - rewrite ResolverMore.every_app. rewrite (digits_dot _ Hd). reflexivity.
Qed.

(** C9, with the newline that may end a reference set aside: a reference
    that, without that newline, neither starts with uppercase letters and
    a colon, nor is made of decimal digits, nor ends with the content
    path and decimal digits, is returned unchanged, and resolving the
    result again changes nothing. *)
Theorem resolveCQL_pass_through (ref : string) :
  key_and_title_form (chomp ref) = false ->
  digits_form (chomp ref) = false ->
  content_uri_form (chomp ref) = false ->
  resolveCQL ref = ref /\ resolveCQL (resolveCQL ref) = resolveCQL ref.
Proof.
  intros H1 H3 H4.
  assert (N1 : search SPACE_PAGE_REF ref = None).
  { destruct (search SPACE_PAGE_REF ref) as [g|] eqn:E; [|reflexivity].
    apply SPACE_PAGE_REF_form in E. congruence. }
  apply resolveCQL_no_match.
  - exact N1.
  - destruct (search PAGE_REF ref) as [g|] eqn:E; [|reflexivity].
    apply PAGE_REF_shadowed in E. congruence.
  - destruct (search PAGE_ID ref) as [g|] eqn:E; [|reflexivity].
    apply PAGE_ID_form in E. congruence.
  - destruct (search PAGE_URI ref) as [g|] eqn:E; [|reflexivity].
    apply PAGE_URI_form in E. congruence.
Qed.

Lemma resolveCQL_pass_through_witness :
  resolveCQL "type = page" = "type = page"
  /\ resolveCQL (resolveCQL "type = page") = resolveCQL "type = page".
Proof.
  apply (resolveCQL_pass_through "type = page"); reflexivity.
Defined.

(** C9 as stated fails: the reference made of the digits 12345 and a
    final newline is of none of the forms, and it is not returned
    unchanged: the third pattern finds the digits before the newline. *)
Lemma pass_through_as_specified_fails : ~ pass_through_as_specified.
Proof.
  intros H. specialize (H ("12345" ++ nl)).
  assert (E : resolveCQL ("12345" ++ nl) = "ID  = 12345") by reflexivity.
  rewrite E in H. discriminate H; reflexivity.
Qed.

End ResolverForms.
